(** * Console input history, client hook and filter-factory hook

    A shallow embedding of

    - [packages/components/src/spectrum/forms.ts], which holds the
      [ConsoleInput] component (command history navigation, the record of
      edited commands, the paged loading of older history) and the
      [useClient] hook;
    - [packages/jsapi-components/src/useFilterConditionFactories.ts].

    JavaScript numbers that index the history are integers of [Z]; a value
    that may be [null] or [undefined] is an [option] (or a [Nullable] where
    the two must be told apart); the [Map] of edited commands is a [gmap];
    exceptions and the calls made on outside objects (the remote table,
    the log, the key event, the submit callback) are threaded through a
    state-and-exception monad whose state carries the trace of such calls.

    Widget geometry ([updateDimensions], [layoutEditor], the resize
    observer) only touches React render state and the size of the editor; it
    is not part of the state below and the calls to it are left out. The
    arithmetic of [updateDimensions] is embedded on its own, in
    [Geometry]. *)

From Stdlib Require Import ZArith Ascii String List Lia.
From stdpp Require Import base option list gmap strings.

Local Open Scope string_scope.
Local Open Scope Z_scope.

(** ** JavaScript values *)

Module Js.

(** A value of type [T | null | undefined]. *)
Inductive Nullable (A : Type) : Type :=
| JsNull
| JsUndefined
| JsVal (a : A).
Arguments JsNull {A}.
Arguments JsUndefined {A}.
Arguments JsVal {A} a.

(** [v != null]: false for both [null] and [undefined]. *)
Definition notNullish {A} (v : Nullable A) : bool :=
  match v with JsVal _ => true | _ => false end.

(** [arr[k]] for an integer [k]: [undefined] outside [0 .. length - 1]. *)
Definition index {A} (arr : list A) (k : Z) : option A :=
  if k <? 0 then None else arr !! Z.to_nat k.

(** [v == null] for a value that is absent as [None]. *)
Definition isNull {A} (v : option A) : bool :=
  match v with None => true | Some _ => false end.

(** [a ?? b]. *)
Definition nullish {A} (a b : option A) : option A :=
  match a with Some x => Some x | None => b end.

(** [ToNumber] of a [number | null]: [null] counts as [0] in arithmetic. *)
Definition toNumber (v : option Z) : Z :=
  match v with Some n => n | None => 0 end.

(** The ASCII part of the white space and line terminators that
    [String.prototype.trim] strips. *)
Definition isWhiteSpace (c : ascii) : bool :=
  let n := nat_of_ascii c in
  ((9 <=? n)%nat && (n <=? 13)%nat) || (n =? 32)%nat.

Fixpoint trimStart (s : string) : string :=
  match s with
  | EmptyString => EmptyString
  | String c s' => if isWhiteSpace c then trimStart s' else s
  end.

Fixpoint trimEnd (s : string) : string :=
  match s with
  | EmptyString => EmptyString
  | String c s' =>
      match trimEnd s' with
      | EmptyString => if isWhiteSpace c then EmptyString else String c EmptyString
      | t => String c t
      end
  end.

Definition trim (s : string) : string := trimEnd (trimStart s).

(** [Array.prototype.filter] with the three-argument callback
    [(element, position, array)]. *)
Fixpoint filterFrom {A} (p : A -> nat -> list A -> bool)
    (arr : list A) (pos : nat) (rest : list A) : list A :=
  match rest with
  | [] => []
  | x :: rest' =>
      if p x pos arr then x :: filterFrom p arr (S pos) rest'
      else filterFrom p arr (S pos) rest'
  end.

Definition filter3 {A} (p : A -> nat -> list A -> bool) (arr : list A) : list A :=
  filterFrom p arr 0%nat arr.

End Js.

(** ** The console input component *)

Module ConsoleInput.

Import Js.

Definition BUFFER_SIZE : Z := 100.

(** [monaco.KeyCode.Enter]. *)
Definition KeyCode_Enter : Z := 3.

(** *** The editor widget, as far as the component reads and writes it *)

Record Position := { lineNumber : Z; column : Z }.

(** The [.suggest-widget] element: whether its class list has [visible],
    and the child count of its [.monaco-list-rows] element when it has
    one. *)
Record SuggestWidget := { visible : bool; listRows : option Z }.

Record Editor := {
  value : string;                         (* text of the attached model *)
  position : option Position;             (* [getPosition()] *)
  scrolledTo : option Position;           (* last [setScrollTop(getTopForPosition(..))] *)
  hasTextFocus : bool;
  suggestNode : option SuggestWidget      (* [getDomNode()?.querySelector('.suggest-widget')] *)
}.

(** Lines of the model; the editor is set to LF line ends ([MonacoUtils.setEOL]). *)
Definition newline : ascii := ascii_of_nat 10.

Fixpoint splitLines (s : string) : list string :=
  match s with
  | EmptyString => [EmptyString]
  | String c s' =>
      if Ascii.eqb c newline then EmptyString :: splitLines s'
      else match splitLines s' with
           | l :: ls => String c l :: ls
           | [] => [String c EmptyString]
           end
  end.

Definition getLineCount (s : string) : Z := Z.of_nat (length (splitLines s)).

Definition getLineLength (s : string) (line : Z) : Z :=
  match Js.index (splitLines s) (line - 1) with
  | Some l => Z.of_nat (String.length l)
  | None => 0
  end.

Record KeyEvent := {
  code : string;
  keyCode : Z;
  altKey : bool;
  shiftKey : bool;
  metaKey : bool;
  ctrlKey : bool
}.

(** *** The remote history table and the cancelable promises on it *)

Record CommandHistoryStorageItem := { id : string; name : string }.

(** A table handle; [size] is the row count read from it. *)
Record Table := { tableRef : nat; size : Z }.

Inductive Error :=
| CanceledPromiseError
| AssertionError
| IllegalArgument
| RemoteError (message : string).

(** Modelled from the spec: [PromiseUtils.isCanceled] of [@deephaven/utils]
    is not among the sources; an error "represents a deliberate
    cancellation" when it is the error a cancelled promise rejects with. *)
Definition isCanceled (err : Error) : bool :=
  match err with CanceledPromiseError => true | _ => false end.

(** What a cancelable promise wraps: the request for the table, or the
    request for the viewport data of a table. *)
Inductive Request :=
| GetTable
| GetViewportData (table : Table).

(** Modelled from the spec: the promise [PromiseUtils.makeCancelable] of
    [@deephaven/utils] returns; that function is not among the sources.
    The wrapper of a request can be cancelled; a cancelled wrapper rejects
    with the cancellation error, and when the wrapped request resolves
    after that, the cleanup given at creation runs on the resolved value
    ("prior cancelled fetch closes its resource"). *)
Record CancelablePromise := {
  wraps : Request;
  hasCanceled : bool;
  settled : bool
}.

(** A promise is known by its place in the list of wrappers made so far. *)
Abbreviation PromiseRef := nat (only parsing).

(** How the wrapped request ends. *)
Inductive Outcome :=
| ResolvedTable (table : Table)
| ResolvedViewport (items : list CommandHistoryStorageItem)
| Rejected (err : Error).

(** Calls made on objects outside the component, in order. *)
Inductive Effect :=
| StorageGetTable (language scope : string) (timestamp : Z)
| TableSetReversed (table : Table) (reversed : bool)
| TableSetViewport (table : Table) (top : option Z) (bottom : Z)
| TableGetViewportData (table : Table)
| TableClose (table : Table)
| PromiseCancel (p : PromiseRef)
| OnSubmit (command : string)
| LogDebug (message : string)
| LogDebug2 (message : string)
| LogError (message : string) (err : Error)
| StopPropagation
| PreventDefault
| ResizeObserverDisconnect
| CloseDocument
| EditorDispose.

(** *** Component state *)

Record Props := { language : string; scope : option string }.

Record State := {
  props : Props;
  commandEditor : option Editor;
  commandHistoryIndex : option Z;
  commandSuggestionContainer : option SuggestWidget;
  loadingPromise : option PromiseRef;
  timestamp : Z;
  bufferIndex : option Z;
  history : list string;
  modifiedCommands : gmap (option Z) (option string);
  promises : list CancelablePromise;       (* every wrapper made so far *)
  effects : list Effect                    (* trace of outside calls *)
}.

Definition set_commandEditor (v : option Editor) (st : State) : State :=
  {| props := props st; commandEditor := v;
     commandHistoryIndex := commandHistoryIndex st;
     commandSuggestionContainer := commandSuggestionContainer st;
     loadingPromise := loadingPromise st; timestamp := timestamp st;
     bufferIndex := bufferIndex st; history := history st;
     modifiedCommands := modifiedCommands st; promises := promises st;
     effects := effects st |}.

Definition set_commandHistoryIndex (v : option Z) (st : State) : State :=
  {| props := props st; commandEditor := commandEditor st;
     commandHistoryIndex := v;
     commandSuggestionContainer := commandSuggestionContainer st;
     loadingPromise := loadingPromise st; timestamp := timestamp st;
     bufferIndex := bufferIndex st; history := history st;
     modifiedCommands := modifiedCommands st; promises := promises st;
     effects := effects st |}.

Definition set_commandSuggestionContainer (v : option SuggestWidget) (st : State) : State :=
  {| props := props st; commandEditor := commandEditor st;
     commandHistoryIndex := commandHistoryIndex st;
     commandSuggestionContainer := v;
     loadingPromise := loadingPromise st; timestamp := timestamp st;
     bufferIndex := bufferIndex st; history := history st;
     modifiedCommands := modifiedCommands st; promises := promises st;
     effects := effects st |}.

Definition set_loadingPromise (v : option PromiseRef) (st : State) : State :=
  {| props := props st; commandEditor := commandEditor st;
     commandHistoryIndex := commandHistoryIndex st;
     commandSuggestionContainer := commandSuggestionContainer st;
     loadingPromise := v; timestamp := timestamp st;
     bufferIndex := bufferIndex st; history := history st;
     modifiedCommands := modifiedCommands st; promises := promises st;
     effects := effects st |}.

Definition set_bufferIndex (v : option Z) (st : State) : State :=
  {| props := props st; commandEditor := commandEditor st;
     commandHistoryIndex := commandHistoryIndex st;
     commandSuggestionContainer := commandSuggestionContainer st;
     loadingPromise := loadingPromise st; timestamp := timestamp st;
     bufferIndex := v; history := history st;
     modifiedCommands := modifiedCommands st; promises := promises st;
     effects := effects st |}.

Definition set_history (v : list string) (st : State) : State :=
  {| props := props st; commandEditor := commandEditor st;
     commandHistoryIndex := commandHistoryIndex st;
     commandSuggestionContainer := commandSuggestionContainer st;
     loadingPromise := loadingPromise st; timestamp := timestamp st;
     bufferIndex := bufferIndex st; history := v;
     modifiedCommands := modifiedCommands st; promises := promises st;
     effects := effects st |}.

Definition set_modifiedCommands (v : gmap (option Z) (option string)) (st : State) : State :=
  {| props := props st; commandEditor := commandEditor st;
     commandHistoryIndex := commandHistoryIndex st;
     commandSuggestionContainer := commandSuggestionContainer st;
     loadingPromise := loadingPromise st; timestamp := timestamp st;
     bufferIndex := bufferIndex st; history := history st;
     modifiedCommands := v; promises := promises st;
     effects := effects st |}.

Definition set_promises (v : list CancelablePromise) (st : State) : State :=
  {| props := props st; commandEditor := commandEditor st;
     commandHistoryIndex := commandHistoryIndex st;
     commandSuggestionContainer := commandSuggestionContainer st;
     loadingPromise := loadingPromise st; timestamp := timestamp st;
     bufferIndex := bufferIndex st; history := history st;
     modifiedCommands := modifiedCommands st; promises := v;
     effects := effects st |}.

Definition set_effects (v : list Effect) (st : State) : State :=
  {| props := props st; commandEditor := commandEditor st;
     commandHistoryIndex := commandHistoryIndex st;
     commandSuggestionContainer := commandSuggestionContainer st;
     loadingPromise := loadingPromise st; timestamp := timestamp st;
     bufferIndex := bufferIndex st; history := history st;
     modifiedCommands := modifiedCommands st; promises := promises st;
     effects := v |}.

(** *** State and exceptions *)

Inductive Completion (A : Type) : Type :=
| Normal (a : A)
| Throw (err : Error).
Arguments Normal {A} a.
Arguments Throw {A} err.

Definition M (A : Type) : Type := State -> Completion A * State.

Definition ret {A} (a : A) : M A := fun st => (Normal a, st).

Definition bind {A B} (m : M A) (k : A -> M B) : M B :=
  fun st =>
    match m st with
    | (Normal a, st') => k a st'
    | (Throw err, st') => (Throw err, st')
    end.

Definition throw {A} (err : Error) : M A := fun st => (Throw err, st).

(** [try { body } catch (err) { handler(err) }]. *)
Definition try_catch {A} (body : M A) (handler : Error -> M A) : M A :=
  fun st =>
    match body st with
    | (Normal a, st') => (Normal a, st')
    | (Throw err, st') => handler err st'
    end.

Definition get : M State := fun st => (Normal st, st).
Definition modify (f : State -> State) : M unit := fun st => (Normal tt, f st).
Definition emit (e : Effect) : M unit :=
  modify (fun st => set_effects (effects st ++ [e]) st).

Notation "'let*' x := m 'in' k" := (bind m (fun x => k))
  (at level 10, x name, m at level 100, k at level 200).
Notation "m ;; k" := (bind m (fun _ => k))
  (at level 100, k at level 200, right associativity).

(** State after running [m], and how it completed. *)
Definition exec {A} (m : M A) (st : State) : State := snd (m st).
Definition completion {A} (m : M A) (st : State) : Completion A := fst (m st).

(** [assertNotNull(v)]. *)
Definition assertNotNull {A} (v : option A) : M A :=
  match v with Some a => ret a | None => throw AssertionError end.

(** *** The constructor *)

Definition constructor (p : Props) (now : Z) : State :=
  {| props := p;
     commandEditor := None;
     commandHistoryIndex := None;
     commandSuggestionContainer := None;
     loadingPromise := None;
     timestamp := now;
     bufferIndex := Some 0;
     history := [];
     modifiedCommands := ∅;
     promises := [];
     effects := [] |}.

(** *** The editor's model *)

(** The listener registered with [onDidChangeModelContent]:
    [modifiedCommands.set(commandHistoryIndex, getValue() ?? null)]. *)
Definition onDidChangeModelContent : M unit :=
  modify (fun st =>
    set_modifiedCommands
      (<[commandHistoryIndex st := option_map value (commandEditor st)]>
         (modifiedCommands st)) st).

Definition withValue (s : string) (ed : Editor) : Editor :=
  {| value := s;
     position := option_map (fun _ => {| lineNumber := 1; column := 1 |}) (position ed);
     scrolledTo := scrolledTo ed;
     hasTextFocus := hasTextFocus ed;
     suggestNode := suggestNode ed |}.

(** [this.commandEditor?.getModel()?.setValue(v)] and
    [this.commandEditor?.setValue(v)]: nothing without an editor. The widget
    takes a string: it replaces the text, puts the cursor back at the start
    and tells the content listener; it refuses [undefined]. *)
Definition setValue (v : option string) : M unit :=
  let* st := get in
  match commandEditor st with
  | None => ret tt
  | Some ed =>
      match v with
      | None => throw IllegalArgument
      | Some s =>
          modify (set_commandEditor (Some (withValue s ed)));;
          onDidChangeModelContent
      end
  end.

Definition withCursor (pos : Position) (ed : Editor) : Editor :=
  {| value := value ed;
     position := Some pos;
     scrolledTo := Some pos;
     hasTextFocus := true;
     suggestNode := suggestNode ed |}.

Definition focusStart : M unit :=
  let* st := get in
  let* ed := assertNotNull (commandEditor st) in
  let column := getLineLength (value ed) 1 + 1 in
  modify (set_commandEditor (Some (withCursor {| lineNumber := 1; column := column |} ed))).

Definition focusEnd : M unit :=
  let* st := get in
  let* ed := assertNotNull (commandEditor st) in
  let lastLine := getLineCount (value ed) in
  let column := getLineLength (value ed) lastLine + 1 in
  modify (set_commandEditor (Some (withCursor {| lineNumber := lastLine; column := column |} ed))).

Definition focus : M unit :=
  modify (fun st =>
    set_commandEditor
      (option_map (fun ed =>
         {| value := value ed; position := position ed; scrolledTo := scrolledTo ed;
            hasTextFocus := true; suggestNode := suggestNode ed |})
         (commandEditor st)) st).

(** *** The suggestion menu *)

Definition isSuggestionMenuActive : M bool :=
  let* st := get in
  (match commandSuggestionContainer st with
   | None => modify (set_commandSuggestionContainer (commandEditor st ≫= suggestNode))
   | Some _ => ret tt
   end);;
  let* st := get in
  ret (match commandSuggestionContainer st with
       | Some w => visible w
       | None => false
       end).

Definition isSuggestionMenuPopulated : M bool :=
  let* active := isSuggestionMenuActive in
  if active then
    let* st := get in
    ret (0 <? default 0 (commandSuggestionContainer st ≫= listRows))
  else ret false.

(** *** Loading older history *)

(** The callback of the page filter:
    [pos === 0 || name !== arr[pos - 1].name]. For [pos > 0] the element
    before is in the array, so the last case is not reached. *)
Definition differsFromPrevious (item : CommandHistoryStorageItem) (pos : nat)
    (arr : list CommandHistoryStorageItem) : bool :=
  (pos =? 0)%nat ||
  match arr !! (pos - 1)%nat with
  | Some prev => negb (String.eqb (name item) (name prev))
  | None => true
  end.

(** Modelled from the spec: [PromiseUtils.makeCancelable] of
    [@deephaven/utils], not among the sources: a new wrapper of the
    request, neither cancelled nor settled. *)
Definition makeCancelable (r : Request) : M PromiseRef :=
  let* st := get in
  modify (set_promises
            (promises st ++ [{| wraps := r; hasCanceled := false; settled := false |}]));;
  ret (length (promises st)).

(** The [catch] block of [loadMoreHistory]. *)
Definition loadMoreHistory_catch (err : Error) : M unit :=
  modify (set_loadingPromise None);;
  if isCanceled err then emit (LogDebug2 "Promise canceled, not loading history")
  else emit (LogError "Error fetching history" err).

(** [loadMoreHistory] up to its first [await]. *)
Definition loadMoreHistory : M unit :=
  try_catch
    (let* st := get in
     if negb (isNull (loadingPromise st)) || isNull (bufferIndex st) then ret tt
     else
       emit (StorageGetTable (language (props st))
                             (default "" (scope (props st)))
                             (timestamp st));;
       let* p := makeCancelable GetTable in
       modify (set_loadingPromise (Some p)))
    loadMoreHistory_catch.

(** From the first [await] to the second. *)
Definition loadMoreHistory_table (table : Table) : M unit :=
  emit (TableSetReversed table true);;
  let* st := get in
  emit (TableSetViewport table (bufferIndex st)
          (toNumber (bufferIndex st) + BUFFER_SIZE - 1));;
  emit (TableGetViewportData table);;
  let* p := makeCancelable (GetViewportData table) in
  modify (set_loadingPromise (Some p)).

(** After the second [await]. *)
Definition loadMoreHistory_viewport (table : Table)
    (items : list CommandHistoryStorageItem) : M unit :=
  modify (fun st => set_bufferIndex (Some (toNumber (bufferIndex st) + BUFFER_SIZE)) st);;
  let* st := get in
  (if size table <=? toNumber (bufferIndex st)
   then modify (set_bufferIndex None) else ret tt);;
  modify (fun st =>
    set_history (rev (map name (filter3 differsFromPrevious items)) ++ history st) st);;
  modify (set_loadingPromise None);;
  emit (TableClose table).

(** An outcome the request can have. *)
Definition outcomeOf (r : Request) (o : Outcome) : bool :=
  match r, o with
  | _, Rejected _ => true
  | GetTable, ResolvedTable _ => true
  | GetViewportData _, ResolvedViewport _ => true
  | _, _ => false
  end.

(** [loadMoreHistory] continues inside its [try] when the awaited promise
    settles: a rejection is thrown at the [await]. *)
Definition loadMoreHistory_resume (r : Request) (o : Outcome) : M unit :=
  try_catch
    (match r, o with
     | _, Rejected err => throw err
     | GetTable, ResolvedTable table => loadMoreHistory_table table
     | GetViewportData table, ResolvedViewport items => loadMoreHistory_viewport table items
     | _, _ => ret tt
     end)
    loadMoreHistory_catch.

(** *** Loading a command into the editor *)

(** [index === null ? '' : this.history[this.history.length - index - 1]]. *)
Definition historyValue (index : option Z) (st : State) : option string :=
  match index with
  | None => Some ""
  | Some i => Js.index (history st) (Z.of_nat (length (history st)) - i - 1)
  end.

(** [this.modifiedCommands.get(index)], with [null] and [undefined] both
    read as absent, as [??] does. *)
Definition modifiedValue (index : option Z) (st : State) : option string :=
  mjoin (modifiedCommands st !! index).

Definition loadCommand (index : option Z) : M unit :=
  let* st := get in
  if match index with
     | Some i => Z.of_nat (length (history st)) <=? i
     | None => false
     end
  then ret tt
  else
    modify (set_commandHistoryIndex index);;
    setValue (nullish (modifiedValue index st) (historyValue index st));;
    let* st' := get in
    match index with
    | Some i =>
        if Z.of_nat (length (history st')) - BUFFER_SIZE <? i
        then loadMoreHistory else ret tt
    | None => ret tt
    end.

(** *** Submitting a command *)

(** [command !== x] for an [x] that may be [undefined]. *)
Definition strictNe (command : string) (x : option string) : bool :=
  match x with
  | Some y => negb (String.eqb command y)
  | None => true
  end.

Definition processCommand (command : string) : M unit :=
  modify (set_commandHistoryIndex None);;
  modify (set_modifiedCommands ∅);;
  let* st := get in
  (if negb (String.eqb command "") &&
      ((length (history st) =? 0)%nat ||
       strictNe command
         (Js.index (history st) (Z.of_nat (length (history st)) - 1)))
   then modify (set_history (history st ++ [command]))
   else ret tt);;
  emit (OnSubmit command).

(** *** Key handling *)

Definition onKeyDown (keyEvent : KeyEvent) : M unit :=
  let* st := get in
  let index := commandHistoryIndex st in
  let* pos := assertNotNull (commandEditor st ≫= position) in
  let line := lineNumber pos in
  if negb (altKey keyEvent) && negb (shiftKey keyEvent) && negb (metaKey keyEvent)
  then
    let* up :=
      (if String.eqb (code keyEvent) "ArrowUp" then
         let* populated := isSuggestionMenuPopulated in
         ret (negb populated && (line =? 1))
       else ret false) in
    if up then
      (match index with
       | Some i => loadCommand (Some (i + 1))
       | None => loadCommand (Some 0)
       end);;
      focusStart;;
      emit StopPropagation;;
      emit PreventDefault
    else
      let* down :=
        (if String.eqb (code keyEvent) "ArrowDown" then
           let* populated := isSuggestionMenuPopulated in
           let* st1 := get in
           ret (negb populated &&
                match commandEditor st1 with
                | Some ed => line =? getLineCount (value ed)
                | None => false
                end)
         else ret false) in
      if down then
        (match index with
         | Some i => if 0 <? i then loadCommand (Some (i - 1)) else loadCommand None
         | None => loadCommand None
         end);;
        focusEnd;;
        emit StopPropagation;;
        emit PreventDefault
      else
        let* enter :=
          (if keyCode keyEvent =? KeyCode_Enter then
             let* populated := isSuggestionMenuPopulated in
             ret (negb populated)
           else ret false) in
        if enter then
          emit StopPropagation;;
          emit PreventDefault;;
          let* st2 := get in
          match commandEditor st2 with
          | Some ed =>
              processCommand (trim (value ed));;
              setValue (Some "")
          | None => ret tt
          end
        else ret tt
  else ret tt.

(** *** The other public methods *)

Definition setConsoleText (text : string) (focusInput execute : bool) : M unit :=
  if String.eqb text "" then ret tt
  else
    emit (LogDebug ("Command received: " ++ text));;
    (if negb execute then
       modify (set_commandHistoryIndex None);;
       setValue (Some text)
     else ret tt);;
    (if focusInput then focusEnd else ret tt);;
    (if execute then processCommand text else ret tt).

Definition clear : M unit :=
  focus;;
  setValue (Some "");;
  modify (set_commandHistoryIndex None).

(** *** Mounting and unmounting *)

(** The container element exists once the component is mounted, so
    [assertNotNull(element)] passes; the editor is created on an empty
    model and focused. *)
Definition initCommandEditor : M unit :=
  modify (set_commandEditor
            (Some {| value := "";
                     position := Some {| lineNumber := 1; column := 1 |};
                     scrolledTo := None;
                     hasTextFocus := true;
                     suggestNode := None |})).

Definition componentDidMount : M unit :=
  initCommandEditor;;
  loadMoreHistory.

Definition destroyCommandEditor : M unit :=
  let* st := get in
  match commandEditor st with
  | Some _ =>
      emit CloseDocument;;
      emit EditorDispose;;
      modify (set_commandEditor None)
  | None => ret tt
  end.

Definition markCanceled (cp : CancelablePromise) : CancelablePromise :=
  {| wraps := wraps cp; hasCanceled := true; settled := settled cp |}.

Definition markSettled (cp : CancelablePromise) : CancelablePromise :=
  {| wraps := wraps cp; hasCanceled := hasCanceled cp; settled := true |}.

(** Modelled from the spec: the [cancel] method of the wrapper that
    [PromiseUtils.makeCancelable] returns, not among the sources: the
    wrapper is marked and rejects with the cancellation error. *)
Definition cancel (p : PromiseRef) : M unit :=
  emit (PromiseCancel p);;
  modify (fun st => set_promises (alter markCanceled p (promises st)) st).

Definition componentWillUnmount : M unit :=
  emit ResizeObserverDisconnect;;
  let* st := get in
  (match loadingPromise st with
   | Some p => cancel p
   | None => ret tt
   end);;
  destroyCommandEditor.

(** The awaiting [loadMoreHistory] receives the rejection of a cancelled
    wrapper once the code that cancelled it has returned. *)
Definition deliverCancellation : M unit :=
  let* st := get in
  match loadingPromise st with
  | Some p =>
      match promises st !! p with
      | Some cp =>
          if hasCanceled cp && negb (settled cp)
          then loadMoreHistory_resume (wraps cp) (Rejected CanceledPromiseError)
          else ret tt
      | None => ret tt
      end
  | None => ret tt
  end.

(** The cleanup given to [makeCancelable]: [resolved => resolved.close()]
    for the table request, [() => table.close()] for the viewport
    request. *)
Definition cleanup (r : Request) (o : Outcome) : M unit :=
  match r, o with
  | GetTable, ResolvedTable table => emit (TableClose table)
  | GetViewportData table, ResolvedViewport _ => emit (TableClose table)
  | _, _ => ret tt
  end.

(** Modelled from the spec: how the wrapper of
    [PromiseUtils.makeCancelable] (not among the sources) passes on the
    end of its request. The request wrapped by promise [p] ends with [o]:
    a wrapper that was not cancelled settles the same way and the awaiting
    [loadMoreHistory] goes on; behind a cancelled wrapper only the cleanup
    runs, and only on a resolved value. *)
Definition settle (p : PromiseRef) (o : Outcome) : M unit :=
  let* st := get in
  match promises st !! p with
  | Some cp =>
      if settled cp || negb (outcomeOf (wraps cp) o) then ret tt
      else
        modify (set_promises (alter markSettled p (promises st)));;
        if hasCanceled cp then cleanup (wraps cp) o
        else if bool_decide (loadingPromise st = Some p)
             then loadMoreHistory_resume (wraps cp) o
             else ret tt
  | None => ret tt
  end.

(** *** Events *)

Inductive Event :=
| Mount
| Unmount
| KeyDown (keyEvent : KeyEvent)
| UserEdit (text : string) (cursor : Position)
| CursorMove (cursor : Position)
| SuggestMenu (w : SuggestWidget)
| SetConsoleText (text : string) (focusInput execute : bool)
| Clear
| Settle (p : PromiseRef) (o : Outcome).

(** The user types in the widget: the text and the cursor change and the
    content listener is told. *)
Definition userEdit (text : string) (cursor : Position) : M unit :=
  let* st := get in
  match commandEditor st with
  | Some ed =>
      modify (set_commandEditor
                (Some {| value := text; position := Some cursor;
                         scrolledTo := scrolledTo ed;
                         hasTextFocus := hasTextFocus ed;
                         suggestNode := suggestNode ed |}));;
      onDidChangeModelContent
  | None => ret tt
  end.

Definition cursorMove (cursor : Position) : M unit :=
  modify (fun st =>
    set_commandEditor
      (option_map (fun ed =>
         {| value := value ed; position := Some cursor; scrolledTo := scrolledTo ed;
            hasTextFocus := hasTextFocus ed; suggestNode := suggestNode ed |})
         (commandEditor st)) st).

(** The widget shows, fills or hides its suggestion element; a component
    that has looked the element up holds a reference to the same
    element. *)
Definition suggestMenu (w : SuggestWidget) : M unit :=
  modify (fun st =>
    set_commandSuggestionContainer
      (match commandSuggestionContainer st with
       | Some _ => Some w
       | None => None
       end)
      (set_commandEditor
         (option_map (fun ed =>
            {| value := value ed; position := position ed; scrolledTo := scrolledTo ed;
               hasTextFocus := hasTextFocus ed; suggestNode := Some w |})
            (commandEditor st)) st)).

Definition dispatch (ev : Event) : M unit :=
  match ev with
  | Mount => componentDidMount
  | Unmount => componentWillUnmount;; deliverCancellation
  | KeyDown keyEvent => onKeyDown keyEvent
  | UserEdit text cursor => userEdit text cursor
  | CursorMove cursor => cursorMove cursor
  | SuggestMenu w => suggestMenu w
  | SetConsoleText text focusInput execute => setConsoleText text focusInput execute
  | Clear => clear
  | Settle p o => settle p o
  end.

(** An exception that leaves a handler ends that handler; the state it
    reached stays. *)
Definition run (evs : list Event) (st : State) : State :=
  fold_left (fun s ev => exec (dispatch ev) s) evs st.

End ConsoleInput.

(** ** The height of the input *)

Module Geometry.

Import ConsoleInput.

Section Geometry.

(** [parseInt(MonacoTheme['line-height'], 10)], a value of the theme;
    heights are whole pixels. *)
Variable LINE_HEIGHT : Z.

Definition TOP_PADDING : Z := 6.
Definition BOTTOM_PADDING : Z := 6.
Definition MIN_INPUT_HEIGHT : Z := LINE_HEIGHT + TOP_PADDING + BOTTOM_PADDING.

(** [defaultProps.maxHeight]. *)
Definition defaultMaxHeight : Z := LINE_HEIGHT * 10.

(** What [updateDimensions] hands on: the [commandEditorHeight] of the
    React state and the [overviewRulerLanes] option of the editor
    ([undefined] keeps the ruler, [0] hides it). *)
Record Dimensions := { commandEditorHeight : Z; overviewRulerLanes : option Z }.

(** [updateDimensions()]. [contentHeight] is [getContentHeight()] of the
    editor, absent when there is no editor; [maxHeight] is the prop. *)
Definition updateDimensions (contentHeight maxHeight : option Z)
    : Completion (option Dimensions) :=
  match contentHeight with
  | None => Normal None
  | Some contentHeight =>
      match maxHeight with
      | None => Throw AssertionError
      | Some maxHeight =>
          let height := Z.max (Z.min contentHeight maxHeight) MIN_INPUT_HEIGHT in
          let shouldScroll := height <? contentHeight in
          Normal (Some {| commandEditorHeight := height;
                          overviewRulerLanes := if shouldScroll then None else Some 0 |})
      end
  end.

End Geometry.

End Geometry.

(** ** The hooks *)

Module Hooks.

Import Js.

(** A hook either returns or throws an error with a message. *)
Inductive Result (T : Type) : Type :=
| Returned (v : T)
| Thrown (message : string).
Arguments Returned {T} v.
Arguments Thrown {T} message.

(** *** [useFilterConditionFactories] *)

(** The table argument is an object reference ([dh.Table] or
    [dh.TreeTable]), [null] or [undefined]. *)
Inductive TableObject :=
| TableObj (ref : nat)
| TreeTableObj (ref : nat).

Definition MaybeTable := Nullable TableObject.

(** A factory is a function object, known by its reference; [Object.is]
    on two of them compares the references. *)
Definition FactoryRef := nat.

(** An item of the dependency array [[maybeTable, ...filterConditionFactories]]. *)
Inductive Dep :=
| DepTable (t : MaybeTable)
| DepFactory (f : FactoryRef).

#[global] Instance TableObject_eq_dec : EqDecision TableObject.
Proof. solve_decision. Defined.

#[global] Instance MaybeTable_eq_dec : EqDecision MaybeTable.
Proof. unfold MaybeTable. solve_decision. Defined.

#[global] Instance Dep_eq_dec : EqDecision Dep.
Proof. solve_decision. Defined.

(** Modelled from the spec: [removeNullAndUndefined] of [@deephaven/utils]
    is not among the sources; as its name and its result type [T[]] say, it
    keeps the arguments that are neither [null] nor [undefined], in the
    order given. *)
Fixpoint removeNullAndUndefined {T} (maybeDefined : list (Nullable T)) : list T :=
  match maybeDefined with
  | [] => []
  | JsVal v :: rest => v :: removeNullAndUndefined rest
  | _ :: rest => removeNullAndUndefined rest
  end.

(** The memo cell React keeps for one [useMemo] call site: the dependency
    array and the value of the last calculation. *)
Record MemoCell (A : Type) := { memoDeps : list Dep; memoValue : A }.
Arguments memoDeps {A} _.
Arguments memoValue {A} _.

(** [useMemo(calculate, deps)]: the stored value is returned while every
    dependency is the same by [Object.is]; otherwise [calculate] runs and
    its value is stored. React expects the dependency array to keep its
    size from one render to the next, and the properties of re-renders
    below are stated for arrays of one size. *)
Definition useMemo {A} (calculate : unit -> A) (deps : list Dep)
    (cell : option (MemoCell A)) : A * option (MemoCell A) :=
  match cell with
  | Some c =>
      if bool_decide (deps = memoDeps c) then (memoValue c, cell)
      else let v := calculate tt in (v, Some {| memoDeps := deps; memoValue := v |})
  | None =>
      let v := calculate tt in (v, Some {| memoDeps := deps; memoValue := v |})
  end.

Section FilterConditionFactories.

Variable FilterCondition : Type.

(** What calling the function object [f] on a table argument returns. *)
Variable call : FactoryRef -> MaybeTable -> Nullable FilterCondition.

Definition useFilterConditionFactories (maybeTable : MaybeTable)
    (filterConditionFactories : list FactoryRef)
    (cell : option (MemoCell (list FilterCondition)))
    : list FilterCondition * option (MemoCell (list FilterCondition)) :=
  useMemo
    (fun _ =>
       removeNullAndUndefined
         (map (fun f => call f maybeTable) filterConditionFactories))
    (DepTable maybeTable :: map DepFactory filterConditionFactories)
    cell.

(** A component that calls the hook on every render, with the arguments of
    that render; the results in order. *)
Fixpoint renders (args : list (MaybeTable * list FactoryRef))
    (cell : option (MemoCell (list FilterCondition)))
    : list (list FilterCondition) :=
  match args with
  | [] => []
  | (maybeTable, factories) :: rest =>
      let '(result, cell') := useFilterConditionFactories maybeTable factories cell in
      result :: renders rest cell'
  end.

End FilterConditionFactories.

(** *** [useClient] *)

(** A React context where the hook is called: the default value and the
    values of the enclosing providers, innermost first. *)
Record Context (T : Type) := {
  defaultValue : Nullable T;
  providers : list (Nullable T)
}.
Arguments defaultValue {T} _.
Arguments providers {T} _.

Definition useContext {T} (context : Context T) : Nullable T :=
  match providers context with
  | v :: _ => v
  | [] => defaultValue context
  end.

(** Modelled from the spec: [useContextOrThrow] of [@deephaven/react-hooks]
    is not among the sources; it returns the value of the context and
    throws an error with the given message when that value is [null] or
    [undefined]. *)
Definition useContextOrThrow {T} (context : Context T) (message : string) : Result T :=
  match useContext context with
  | JsVal v => Returned v
  | _ => Thrown message
  end.

Definition useClient_message : string :=
  "No Client available in useClient. Was code wrapped in ClientBootstrap or ClientContext.Provider?".

Definition useClient {CoreClient} (ClientContext : Context CoreClient) : Result CoreClient :=
  useContextOrThrow ClientContext useClient_message.

(** [haystack.includes(needle)]. *)
Fixpoint includes (needle haystack : string) : bool :=
  String.prefix needle haystack ||
  match haystack with
  | EmptyString => false
  | String _ rest => includes needle rest
  end.

End Hooks.

(** ** Sample states and inputs *)

Module Samples.

Import Js ConsoleInput.

Definition sampleProps : Props := {| language := "python"; scope := None |}.

Definition sampleTable : Table := {| tableRef := 1; size := 3 |}.

Definition item (n : string) : CommandHistoryStorageItem := {| id := n; name := n |}.

(** Newest first, as the reversed table serves it; ["c"] was run twice in
    a row. *)
Definition samplePage : list CommandHistoryStorageItem :=
  [item "c"; item "c"; item "b"; item "a"].

Definition key (c : string) (k : Z) : KeyEvent :=
  {| code := c; keyCode := k; altKey := false; shiftKey := false;
     metaKey := false; ctrlKey := false |}.

Definition arrowUp : KeyEvent := key "ArrowUp" 16.
Definition arrowDown : KeyEvent := key "ArrowDown" 18.
Definition enterKey : KeyEvent := key "Enter" KeyCode_Enter.

(** Mounted, the first page of history still being fetched. *)
Definition fetching : State := run [Mount] (constructor sampleProps 0).

(** Unmounted while that fetch was in flight. *)
Definition unmounted : State := run [Unmount] fetching.

(** Mounted, the whole history ["a"; "b"; "c"] loaded, a fresh command in
    the editor. *)
Definition idle : State :=
  run [Settle 0%nat (ResolvedTable sampleTable);
       Settle 1%nat (ResolvedViewport samplePage)] fetching.

(** The second newest command on screen, then edited by the user. *)
Definition browsing : State :=
  run [KeyDown arrowUp; KeyDown arrowUp;
       UserEdit "b + 1" {| lineNumber := 1; column := 6 |}] idle.

(** The first fetch failed; the user then ran the command ["a"]. *)
Definition offline : State :=
  run [Settle 0%nat (Rejected (RemoteError "offline"));
       UserEdit "a" {| lineNumber := 1; column := 2 |};
       KeyDown enterKey] fetching.

(** Four factories: the first and the last yield a condition, the other
    two [null] and [undefined]. *)
Definition sampleCall (f : Hooks.FactoryRef) (t : Hooks.MaybeTable) : Nullable string :=
  match f with
  | 0%nat => JsVal "a = 1"
  | 1%nat => JsNull
  | 2%nat => JsUndefined
  | _ => match t with
         | JsVal (Hooks.TableObj _) => JsVal "d in table"
         | _ => JsVal "d"
         end
  end.

(** Three spaces typed into the fresh command. *)
Definition spaces : State :=
  run [UserEdit "   " {| lineNumber := 1; column := 4 |}] idle.

(** The table of the first fetch has arrived and its page is awaited;
    meanwhile the user has run the command ["z"]. *)
Definition typedAhead : State :=
  run [Settle 0%nat (ResolvedTable sampleTable);
       UserEdit "z" {| lineNumber := 1; column := 2 |};
       KeyDown enterKey] fetching.

End Samples.

(** ** Notions used to state the properties of the console input *)

Module ConsoleInputSpec.

Import Js ConsoleInput.

(** The guard of [loadCommand] lets the index through. *)
Definition accepted (index : option Z) (st : State) : Prop :=
  match index with
  | Some i => i < Z.of_nat (length (history st))
  | None => True
  end.

(** The text [loadCommand] is to show: the edited version when there is
    one, the history entry [h] otherwise. *)
Definition shown (index : option Z) (h : string) (st : State) : string :=
  match modifiedCommands st !! index with
  | Some (Some edited) => edited
  | _ => h
  end.

(** The state once [loadCommand] has set the index and the text; none when
    the widget refused the text. *)
Definition loaded (index : option Z) (st : State) : option State :=
  match commandEditor st with
  | None => Some (set_commandHistoryIndex index st)
  | Some ed =>
      match nullish (modifiedValue index st) (historyValue index st) with
      | Some v =>
          Some (set_modifiedCommands (<[index := Some v]> (modifiedCommands st))
                  (set_commandEditor (Some (withValue v ed))
                     (set_commandHistoryIndex index st)))
      | None => None
      end
  end.

(** The last statement of [loadCommand]. *)
Definition backfill (index : option Z) (st : State) : Completion unit * State :=
  match index with
  | Some i =>
      if Z.of_nat (length (history st)) - BUFFER_SIZE <? i
      then loadMoreHistory st else (Normal tt, st)
  | None => (Normal tt, st)
  end.

(** The offsets the arrow keys ask for. *)
Definition arrowUpTarget (index : option Z) : option Z :=
  match index with Some i => Some (i + 1) | None => Some 0 end.

Definition arrowDownTarget (index : option Z) : option Z :=
  match index with
  | Some i => if 0 <? i then Some (i - 1) else None
  | None => None
  end.

(** A fetch of older history starts between [st] and [st']: the storage is
    asked for the table and the promise of it becomes the one in flight. *)
Definition fetchStarted (st st' : State) : Prop :=
  effects st' =
    (effects st ++ [StorageGetTable (language (props st))
                      (default "" (scope (props st))) (timestamp st)])%list /\
  promises st' =
    (promises st ++ [{| wraps := GetTable; hasCanceled := false; settled := false |}])%list /\
  loadingPromise st' = Some (length (promises st)).

(** Nothing of a fetch happens between [st] and [st']. *)
Definition fetchUntouched (st st' : State) : Prop :=
  effects st' = effects st /\
  promises st' = promises st /\
  loadingPromise st' = loadingPromise st.

(** What the [catch] block of [loadMoreHistory] writes to the log. *)
Definition catchLog (err : Error) : Effect :=
  if isCanceled err then LogDebug2 "Promise canceled, not loading history"
  else LogError "Error fetching history" err.

(** The table a request yields when it resolves with [o]. *)
Definition resolvesWith (r : Request) (o : Outcome) (table : Table) : Prop :=
  match r, o with
  | GetTable, ResolvedTable t => t = table
  | GetViewportData t, ResolvedViewport _ => t = table
  | _, _ => False
  end.

(** A page without the items that repeat the name of the item before
    them; [prev] is the name before the first item, if any. *)
Fixpoint dropRepeats (prev : option string) (items : list CommandHistoryStorageItem)
    : list CommandHistoryStorageItem :=
  match items with
  | [] => []
  | x :: rest =>
      if match prev with
         | Some n => String.eqb (name x) n
         | None => false
         end
      then dropRepeats (Some (name x)) rest
      else x :: dropRepeats (Some (name x)) rest
  end.

(** No entry equals the entry before it. *)
Fixpoint noRepeats (prev : option string) (names : list string) : Prop :=
  match names with
  | [] => True
  | n :: rest => prev <> Some n /\ noRepeats (Some n) rest
  end.

(** [m] keeps the property [Inv] of states, whether it returns or throws. *)
Definition preserves (Inv : State -> Prop) {A} (m : M A) : Prop :=
  forall st, Inv st -> Inv (snd (m st)).

(** The index is the sentinel or an offset inside the history. *)
Definition indexInRange (st : State) : Prop :=
  match commandHistoryIndex st with
  | None => True
  | Some i => 0 <= i < Z.of_nat (length (history st))
  end.

(** A wrapper is live while its request is pending and it was not
    cancelled. *)
Definition live (cp : CancelablePromise) : Prop :=
  settled cp = false /\ hasCanceled cp = false.

Definition noLive (st : State) : Prop :=
  forall q cq, promises st !! q = Some cq -> ~ live cq.

(** The only live wrapper is the one [loadingPromise] refers to. *)
Definition singleFlight (st : State) : Prop :=
  (forall q cq, promises st !! q = Some cq -> live cq -> loadingPromise st = Some q) /\
  (forall p, loadingPromise st = Some p ->
             exists cp, promises st !! p = Some cp /\ live cp).

(** *** Notions for the further properties *)

(** The sentinel, or an offset inside the history. *)
Definition inHistory (index : option Z) (st : State) : Prop :=
  match index with
  | None => True
  | Some i => 0 <= i < Z.of_nat (length (history st))
  end.

(** The text of the editor, when there is one. *)
Definition editorText (st : State) : option string :=
  value <$> commandEditor st.

(** The text recorded for an index by the content listener. *)
Definition recorded (index : option Z) (st : State) : option string :=
  mjoin (modifiedCommands st !! index).

(** The user looks at the command at [j] and comes back to [i]. *)
Definition visit (j i : option Z) : M unit :=
  loadCommand j;; loadCommand i.

(** What a key is for the handler, by the modifier keys, the line of the
    cursor, the number of lines and the state of the suggestion menu. *)
Inductive KeyAction := GoUp | GoDown | Submit | LeaveToWidget.

Definition keyAction (ev : KeyEvent) (line lines : Z) (populated : bool) : KeyAction :=
  if altKey ev || shiftKey ev || metaKey ev then LeaveToWidget
  else if String.eqb (code ev) "ArrowUp" && negb populated && (line =? 1) then GoUp
  else if String.eqb (code ev) "ArrowDown" && negb populated && (line =? lines) then GoDown
  else if (keyCode ev =? KeyCode_Enter) && negb populated then Submit
  else LeaveToWidget.

(** Two states that differ at most in the suggestion element the
    component remembers. *)
Definition sameButMenu (st st' : State) : Prop :=
  props st' = props st /\
  commandEditor st' = commandEditor st /\
  commandHistoryIndex st' = commandHistoryIndex st /\
  loadingPromise st' = loadingPromise st /\
  timestamp st' = timestamp st /\
  bufferIndex st' = bufferIndex st /\
  history st' = history st /\
  modifiedCommands st' = modifiedCommands st /\
  promises st' = promises st /\
  effects st' = effects st.

(** The editor, when there is one, has a cursor. *)
Definition hasCursor (st : State) : Prop :=
  match commandEditor st with
  | Some ed => position ed <> None
  | None => True
  end.

(** Nothing but white space. *)
Fixpoint blank (s : string) : bool :=
  match s with
  | EmptyString => true
  | String c s' => isWhiteSpace c && blank s'
  end.

(** The history [h0] is still there, in one piece and in order, with
    older entries before it and newer ones after it. *)
Definition keepsHistory (h0 : list string) (st : State) : Prop :=
  exists older newer, history st = (older ++ h0 ++ newer)%list.

(** A viewport request asks for a whole page that starts at a multiple
    of the page size. *)
Definition viewportOk (e : Effect) : Prop :=
  match e with
  | TableSetViewport _ top bottom =>
      exists k, 0 <= k /\ top = Some (BUFFER_SIZE * k) /\
                bottom = BUFFER_SIZE * k + BUFFER_SIZE - 1
  | _ => True
  end.

Definition pagesAligned (st : State) : Prop :=
  match bufferIndex st with
  | Some b => exists k, 0 <= k /\ b = BUFFER_SIZE * k
  | None => True
  end /\
  Forall viewportOk (effects st).

(** The calls that ask the storage or a table for history. *)
Definition isRequest (e : Effect) : bool :=
  match e with
  | StorageGetTable _ _ _ | TableSetReversed _ _
  | TableSetViewport _ _ _ | TableGetViewportData _ => true
  | _ => false
  end.

Definition requests (st : State) : list Effect :=
  List.filter isRequest (effects st).

(** What reaches an unmounted component from outside: the widget's
    events and the ends of requests; its methods are no longer called. *)
Definition fromOutside (ev : Event) : Prop :=
  match ev with
  | KeyDown _ | UserEdit _ _ | CursorMove _ | SuggestMenu _ | Settle _ _ => True
  | Mount | Unmount | SetConsoleText _ _ _ | Clear => False
  end.

(** What the user sees and has typed is as in [st], and the history is
    that of [st] with older entries in front. *)
Definition sameScreen (st st' : State) : Prop :=
  commandEditor st' = commandEditor st /\
  commandHistoryIndex st' = commandHistoryIndex st /\
  modifiedCommands st' = modifiedCommands st /\
  exists older, history st' = (older ++ history st)%list.

(** A request is in flight only while there is history left to fetch,
    and the pages are aligned. *)
Definition paging (st : State) : Prop :=
  (bufferIndex st = None -> loadingPromise st = None) /\ pagesAligned st.

(** Nothing is left to fetch and nothing is being fetched; [fx] are the
    requests made so far. *)
Definition exhausted (fx : list Effect) (st : State) : Prop :=
  bufferIndex st = None /\ loadingPromise st = None /\ noLive st /\ requests st = fx.

(** The component is unmounted and idle, with history [h], buffer index
    [b] and requests [fx]. *)
Definition gone (h : list string) (b : option Z) (fx : list Effect) (st : State) : Prop :=
  commandEditor st = None /\ loadingPromise st = None /\ noLive st /\
  history st = h /\ bufferIndex st = b /\ requests st = fx.

(** A whole fetch from [st]: the call, then the ends [o1] and [o2] of
    its two requests, whose wrappers get the next two references. *)
Definition fetch (st : State) (o1 o2 : Outcome) : M unit :=
  loadMoreHistory;;
  settle (length (promises st)) o1;;
  settle (S (length (promises st))) o2.

(** The calls of a fetch up to its second request. *)
Definition fetchCalls (st : State) (table : Table) : list Effect :=
  [StorageGetTable (language (props st)) (default "" (scope (props st))) (timestamp st);
   TableSetReversed table true;
   TableSetViewport table (bufferIndex st) (toNumber (bufferIndex st) + BUFFER_SIZE - 1);
   TableGetViewportData table].

(** A call to the storage asks for the history of the language and scope
    of the props [p], as it was at the time [now]. *)
Definition storageOk (p : Props) (now : Z) (e : Effect) : Prop :=
  match e with
  | StorageGetTable l s t => l = language p /\ s = default "" (scope p) /\ t = now
  | _ => True
  end.

Definition asksAsOf (p : Props) (now : Z) (st : State) : Prop :=
  props st = p /\ timestamp st = now /\ Forall (storageOk p now) (effects st).

End ConsoleInputSpec.

(** ** Notions used to state the properties of the hooks *)

Module HooksSpec.

Import Js Hooks.

(** The memo cell holds the result for the arguments it was filled with. *)
Definition cellOk {FilterCondition : Type}
    (call : FactoryRef -> MaybeTable -> Nullable FilterCondition)
    (cell : option (MemoCell (list FilterCondition))) : Prop :=
  match cell with
  | None => True
  | Some c =>
      exists t fs,
        memoDeps c = DepTable t :: map DepFactory fs /\
        memoValue c = removeNullAndUndefined (map (fun f => call f t) fs)
  end.

End HooksSpec.

(** ** Properties of the console input *)

Module ConsoleInputFacts.

Import Js ConsoleInput ConsoleInputSpec Samples.

Ltac unfold_m :=
  unfold exec, completion, emit, modify, get, ret, throw, bind, try_catch in *.

(** *** What the single methods do to the state *)

(** Two states with the same fields are the same state. *)
Lemma state_ext (a b : State) :
  props a = props b ->
  commandEditor a = commandEditor b ->
  commandHistoryIndex a = commandHistoryIndex b ->
  commandSuggestionContainer a = commandSuggestionContainer b ->
  loadingPromise a = loadingPromise b ->
  timestamp a = timestamp b ->
  bufferIndex a = bufferIndex b ->
  history a = history b ->
  modifiedCommands a = modifiedCommands b ->
  promises a = promises b ->
  effects a = effects b ->
  a = b.
Proof.
  destruct a, b. simpl. intros. subst. reflexivity.
Qed.

Lemma loadMoreHistory_cases (st : State) :
  loadMoreHistory st =
    if negb (isNull (loadingPromise st)) || isNull (bufferIndex st)
    then (Normal tt, st)
    else (Normal tt,
          set_loadingPromise (Some (length (promises st)))
            (set_promises
               (promises st ++ [{| wraps := GetTable; hasCanceled := false; settled := false |}])
               (set_effects
                  (effects st ++
                     [StorageGetTable (language (props st))
                        (default "" (scope (props st))) (timestamp st)]) st))).
Proof.
  unfold loadMoreHistory, makeCancelable. unfold_m.
  destruct (negb (isNull (loadingPromise st)) || isNull (bufferIndex st)); reflexivity.
Qed.

Lemma loadMoreHistory_frame (st : State) :
  completion loadMoreHistory st = Normal tt /\
  commandEditor (exec loadMoreHistory st) = commandEditor st /\
  commandHistoryIndex (exec loadMoreHistory st) = commandHistoryIndex st /\
  history (exec loadMoreHistory st) = history st /\
  modifiedCommands (exec loadMoreHistory st) = modifiedCommands st.
Proof.
  unfold completion, exec. rewrite loadMoreHistory_cases.
  destruct (negb (isNull (loadingPromise st)) || isNull (bufferIndex st)); simpl; tauto.
Qed.

Lemma loadMoreHistory_in_flight (st : State) (p : PromiseRef) :
  loadingPromise st = Some p -> loadMoreHistory st = (Normal tt, st).
Proof. intros Hp. rewrite loadMoreHistory_cases, Hp. reflexivity. Qed.

Lemma loadMoreHistory_fetch (st : State) :
  (loadingPromise st = None /\ bufferIndex st <> None ->
   fetchStarted st (exec loadMoreHistory st)) /\
  (~ (loadingPromise st = None /\ bufferIndex st <> None) ->
   fetchUntouched st (exec loadMoreHistory st)).
Proof.
  unfold exec. rewrite loadMoreHistory_cases.
  unfold fetchStarted, fetchUntouched.
  destruct (loadingPromise st) as [p|] eqn:E1, (bufferIndex st) as [b|] eqn:E2;
    simpl; split;
    try (intros [? ?]; congruence); try tauto;
    try (intros H; exfalso; apply H; split; congruence).
Qed.

Lemma fetchStarted_not_untouched (st st' : State) :
  fetchStarted st st' -> fetchUntouched st st' -> False.
Proof.
  intros (He & _) (He' & _). rewrite He' in He.
  apply (f_equal (@length Effect)) in He. rewrite length_app in He. simpl in He. lia.
Qed.

Lemma loadMoreHistory_catch_state (err : Error) (st : State) :
  loadMoreHistory_catch err st =
    (Normal tt, set_effects (effects st ++ [catchLog err]) (set_loadingPromise None st)).
Proof.
  unfold loadMoreHistory_catch, catchLog. unfold_m.
  destruct (isCanceled err); reflexivity.
Qed.

Lemma loadMoreHistory_viewport_state (table : Table)
    (items : list CommandHistoryStorageItem) (st : State) :
  loadMoreHistory_viewport table items st =
    (Normal tt,
     set_effects (effects st ++ [TableClose table])
       (set_loadingPromise None
          (set_history
             (rev (map name (filter3 differsFromPrevious items)) ++ history st)
             (set_bufferIndex
                (if size table <=? toNumber (bufferIndex st) + BUFFER_SIZE
                 then None else Some (toNumber (bufferIndex st) + BUFFER_SIZE))
                st)))).
Proof.
  unfold loadMoreHistory_viewport. unfold_m. simpl.
  destruct (size table <=? toNumber (bufferIndex st) + BUFFER_SIZE); reflexivity.
Qed.

Lemma setValue_editor (st : State) (ed : Editor) (s : string) :
  commandEditor st = Some ed ->
  setValue (Some s) st =
    (Normal tt,
     set_modifiedCommands (<[commandHistoryIndex st := Some s]> (modifiedCommands st))
       (set_commandEditor (Some (withValue s ed)) st)).
Proof.
  intros He. unfold setValue, onDidChangeModelContent. unfold_m. rewrite He. reflexivity.
Qed.

Lemma setValue_no_editor (st : State) (v : option string) :
  commandEditor st = None -> setValue v st = (Normal tt, st).
Proof. intros He. unfold setValue. unfold_m. rewrite He. reflexivity. Qed.

Lemma processCommand_state (command : string) (st : State) :
  processCommand command st =
    (Normal tt,
     set_effects (effects st ++ [OnSubmit command])
       (set_history
          (if negb (String.eqb command "") &&
              ((length (history st) =? 0)%nat ||
               strictNe command
                 (Js.index (history st) (Z.of_nat (length (history st)) - 1)))
           then history st ++ [command] else history st)
          (set_modifiedCommands ∅ (set_commandHistoryIndex None st)))).
Proof.
  unfold processCommand. unfold_m. simpl.
  destruct (negb (String.eqb command "") && _); reflexivity.
Qed.

(** The suggestion menu is only looked at: the one thing that changes is
    the element the component remembers. *)
Lemma isSuggestionMenuPopulated_frame (st : State) :
  exists b,
    isSuggestionMenuPopulated st =
      (Normal b,
       set_commandSuggestionContainer
         (match commandSuggestionContainer st with
          | Some w => Some w
          | None => commandEditor st ≫= suggestNode
          end) st).
Proof.
  unfold isSuggestionMenuPopulated, isSuggestionMenuActive. unfold_m.
  destruct st as [pr ed idx [w|] lp ts bi h m ps es]; simpl.
  - destruct (visible w); eexists; reflexivity.
  - destruct (ed ≫= suggestNode) as [w|]; simpl.
    + destruct (visible w); eexists; reflexivity.
    + eexists; reflexivity.
Qed.

(** *** [loadCommand] *)

Lemma history_lookup_in_range {A} (l : list A) (i : Z) :
  0 <= i < Z.of_nat (length l) ->
  exists h, Js.index l (Z.of_nat (length l) - i - 1) = Some h
            /\ l !! (length l - 1 - Z.to_nat i)%nat = Some h
            /\ rev l !! Z.to_nat i = Some h.
Proof.
  intros Hi. unfold Js.index.
  destruct (Z.ltb_spec (Z.of_nat (length l) - i - 1) 0) as [Hneg|_]; [lia|].
  replace (Z.to_nat (Z.of_nat (length l) - i - 1)) with (length l - 1 - Z.to_nat i)%nat by lia.
  destruct (lookup_lt_is_Some_2 l (length l - 1 - Z.to_nat i)%nat) as [h Hh]; [lia|].
  exists h. split; [exact Hh|]. split; [exact Hh|].
  rewrite rev_alt. change (rev_append l []) with (reverse l).
  rewrite reverse_lookup by lia.
  rewrite <- Hh. f_equal. lia.
Qed.

Lemma loadCommand_unfold (index : option Z) (st : State) :
  accepted index st ->
  loadCommand index st =
    match setValue (nullish (modifiedValue index st) (historyValue index st))
            (set_commandHistoryIndex index st) with
    | (Normal _, st') =>
        match index with
        | Some i =>
            if Z.of_nat (length (history st')) - BUFFER_SIZE <? i
            then loadMoreHistory st' else (Normal tt, st')
        | None => (Normal tt, st')
        end
    | (Throw err, st') => (Throw err, st')
    end.
Proof.
  intros Hacc. unfold loadCommand. unfold_m.
  destruct index as [i|]; simpl in Hacc.
  - destruct (Z.leb_spec (Z.of_nat (length (history st))) i); [lia|].
    destruct (setValue _ _) as [[[]|err] st']; [|reflexivity].
    destruct (_ <? i); reflexivity.
  - destruct (setValue _ _) as [[[]|err] st']; reflexivity.
Qed.

Lemma loadCommand_spec (index : option Z) (st : State) :
  accepted index st ->
  loadCommand index st =
    match loaded index st with
    | Some st1 => backfill index st1
    | None => (Throw IllegalArgument, set_commandHistoryIndex index st)
    end.
Proof.
  intros Hacc. rewrite loadCommand_unfold by exact Hacc.
  unfold loaded, backfill.
  destruct (commandEditor st) as [ed|] eqn:He.
  - destruct (nullish _ _) as [v|].
    + erewrite setValue_editor by (simpl; exact He). reflexivity.
    + unfold setValue. unfold_m. simpl. rewrite He. reflexivity.
  - rewrite setValue_no_editor by (simpl; exact He). reflexivity.
Qed.

Lemma loadCommand_beyond (st : State) (i : Z) :
  Z.of_nat (length (history st)) <= i ->
  loadCommand (Some i) st = (Normal tt, st).
Proof.
  intros Hi. unfold loadCommand. unfold_m.
  destruct (Z.leb_spec (Z.of_nat (length (history st))) i); [reflexivity | lia].
Qed.

Lemma nullish_shown (index : option Z) (h : string) (st : State) :
  nullish (modifiedValue index st) (Some h) = Some (shown index h st).
Proof.
  unfold modifiedValue, shown.
  destruct (modifiedCommands st !! index) as [[edited|]|]; reflexivity.
Qed.

(** With a text to show, [loadCommand] reaches its last statement. *)
Lemma loaded_shown (index : option Z) (h : string) (st : State) :
  historyValue index st = Some h ->
  loaded index st =
    Some (match commandEditor st with
          | Some ed =>
              set_modifiedCommands
                (<[index := Some (shown index h st)]> (modifiedCommands st))
                (set_commandEditor (Some (withValue (shown index h st) ed))
                   (set_commandHistoryIndex index st))
          | None => set_commandHistoryIndex index st
          end).
Proof.
  intros Hh. unfold loaded. rewrite Hh, nullish_shown.
  destruct (commandEditor st); reflexivity.
Qed.

Lemma loaded_frame (index : option Z) (st st1 : State) :
  loaded index st = Some st1 ->
  props st1 = props st /\ timestamp st1 = timestamp st /\
  history st1 = history st /\ bufferIndex st1 = bufferIndex st /\
  effects st1 = effects st /\ promises st1 = promises st /\
  loadingPromise st1 = loadingPromise st /\
  commandHistoryIndex st1 = index.
Proof.
  unfold loaded. destruct (commandEditor st) as [ed|].
  - destruct (nullish _ _) as [v|]; [|discriminate].
    intros [= <-]. simpl. tauto.
  - intros [= <-]. simpl. tauto.
Qed.

Lemma backfill_frame (index : option Z) (st : State) :
  fst (backfill index st) = Normal tt /\
  commandEditor (snd (backfill index st)) = commandEditor st /\
  commandHistoryIndex (snd (backfill index st)) = commandHistoryIndex st /\
  history (snd (backfill index st)) = history st /\
  modifiedCommands (snd (backfill index st)) = modifiedCommands st.
Proof.
  unfold backfill. destruct index as [i|]; [|simpl; tauto].
  destruct (_ <? i); [|simpl; tauto].
  pose proof (loadMoreHistory_frame st) as H. unfold completion, exec in H. tauto.
Qed.

(** C3. For a non-null index [i] inside the history, [loadCommand(i)] puts
    into the editor the edited version recorded for [i] when there is one
    and otherwise the history entry [history[history.length - i - 1]],
    which is the entry at offset [i] counted back from the newest command;
    [loadCommand(null)] puts back the edited fresh command when there is
    one and otherwise the empty string. In each case the call returns and
    [commandHistoryIndex] is the index given. (Without an editor there is
    no text to set; the index is set all the same.) *)
Theorem loadCommand_shows (st : State) :
  (forall i, 0 <= i < Z.of_nat (length (history st)) ->
     exists h,
       history st !! (length (history st) - 1 - Z.to_nat i)%nat = Some h /\
       rev (history st) !! Z.to_nat i = Some h /\
       completion (loadCommand (Some i)) st = Normal tt /\
       commandHistoryIndex (exec (loadCommand (Some i)) st) = Some i /\
       commandEditor (exec (loadCommand (Some i)) st) =
         withValue (shown (Some i) h st) <$> commandEditor st)
  /\
  (completion (loadCommand None) st = Normal tt /\
   commandHistoryIndex (exec (loadCommand None) st) = None /\
   commandEditor (exec (loadCommand None) st) =
     withValue (shown None "" st) <$> commandEditor st).
Proof.
  split.
  - intros i Hi.
    destruct (history_lookup_in_range (history st) i Hi) as (h & Hjs & Hnat & Hrev).
    exists h. split; [exact Hnat|]. split; [exact Hrev|].
    unfold completion, exec.
    rewrite loadCommand_spec by (simpl; lia).
    rewrite (loaded_shown (Some i) h st Hjs).
    destruct (commandEditor st) as [ed|] eqn:He0;
      match goal with |- context [backfill ?ix ?s] =>
        destruct (backfill_frame ix s) as (Hc & He & Hx & _) end;
      rewrite Hc, He, Hx; simpl; rewrite ?He0; repeat split; reflexivity.
  - unfold completion, exec.
    rewrite loadCommand_spec by exact I.
    rewrite (loaded_shown None "" st eq_refl).
    destruct (commandEditor st) as [ed|] eqn:He0; simpl; rewrite ?He0;
      repeat split; reflexivity.
Qed.

(** While the user browses offset 1 with the edited text ["b + 1"]:
    offset 1 shows the edited text, offset 2 the history entry ["a"], and
    the sentinel the empty fresh command. *)
Lemma loadCommand_shows_witness :
  commandHistoryIndex (exec (loadCommand (Some 1)) browsing) = Some 1 /\
  value <$> commandEditor (exec (loadCommand (Some 1)) browsing) = Some "b + 1" /\
  value <$> commandEditor (exec (loadCommand (Some 2)) browsing) = Some "a" /\
  value <$> commandEditor (exec (loadCommand None) browsing) = Some "".
Proof.
  destruct (proj1 (loadCommand_shows browsing) 1 ltac:(vm_compute; split; congruence))
    as (h1 & Hh1 & _ & _ & Hi1 & He1).
  destruct (proj1 (loadCommand_shows browsing) 2 ltac:(vm_compute; split; congruence))
    as (h2 & Hh2 & _ & _ & _ & He2).
  destruct (proj2 (loadCommand_shows browsing)) as (_ & _ & He0).
  split; [exact Hi1|].
  split; [rewrite He1; vm_compute in Hh1; injection Hh1 as <-; vm_compute; reflexivity|].
  split; [rewrite He2; vm_compute in Hh2; injection Hh2 as <-; vm_compute; reflexivity|].
  rewrite He0; vm_compute; reflexivity.
Defined.

(** C4. For a non-null index [i] that passes the guard of [loadCommand]:
    the call returns whenever [i] is not negative, and when it returns it
    ends by calling [loadMoreHistory] exactly when
    [i > history.length - BUFFER_SIZE]. Seen from outside: a fetch starts
    exactly when that holds and [loadMoreHistory] itself goes ahead (no
    fetch in flight, history not exhausted); for an index further from the
    edge nothing of a fetch happens. *)
Theorem loadCommand_backfills (st : State) (i : Z) :
  i < Z.of_nat (length (history st)) ->
  (0 <= i -> completion (loadCommand (Some i)) st = Normal tt) /\
  (completion (loadCommand (Some i)) st = Normal tt ->
   exists st1,
     loaded (Some i) st = Some st1 /\
     loadCommand (Some i) st =
       (if Z.of_nat (length (history st)) - BUFFER_SIZE <? i
        then loadMoreHistory st1 else (Normal tt, st1)) /\
     (fetchStarted st (exec (loadCommand (Some i)) st) <->
        Z.of_nat (length (history st)) - BUFFER_SIZE < i /\
        loadingPromise st = None /\ bufferIndex st <> None) /\
     (~ Z.of_nat (length (history st)) - BUFFER_SIZE < i ->
      fetchUntouched st (exec (loadCommand (Some i)) st))).
Proof.
  intros Hacc. split.
  - intros Hi. unfold completion.
    rewrite loadCommand_spec by exact Hacc.
    destruct (history_lookup_in_range (history st) i (conj Hi Hacc)) as (h & Hjs & _).
    rewrite (loaded_shown (Some i) h st Hjs).
    match goal with |- context [backfill ?ix ?s] =>
      exact (proj1 (backfill_frame ix s)) end.
  - unfold completion, exec. rewrite loadCommand_spec by exact Hacc.
    destruct (loaded (Some i) st) as [st1|] eqn:Hl; [|discriminate].
    intros _. exists st1. split; [reflexivity|].
    destruct (loaded_frame _ _ _ Hl) as (Hp & Ht & Hh & Hb & He & Hps & Hlp & _).
    unfold backfill. rewrite Hh.
    split; [reflexivity|].
    destruct (loadMoreHistory_fetch st1) as [Hstart Hnot]. unfold exec in *.
    assert (Hst : forall s, fetchStarted st1 s <-> fetchStarted st s).
    { intros s. unfold fetchStarted. rewrite Hp, Ht, He, Hps. tauto. }
    assert (Hun : forall s, fetchUntouched st1 s <-> fetchUntouched st s).
    { intros s. unfold fetchUntouched. rewrite He, Hps, Hlp. tauto. }
    assert (Hself : fetchUntouched st st1).
    { unfold fetchUntouched. tauto. }
    rewrite Hlp, Hb in *.
    destruct (Z.ltb_spec (Z.of_nat (length (history st)) - BUFFER_SIZE) i) as [Hlt|Hge].
    + split.
      * split.
        -- intros Hs. split; [exact Hlt|].
           destruct (loadingPromise st) as [p|] eqn:E1, (bufferIndex st) as [b|] eqn:E2;
             try (split; congruence);
             exfalso; apply (fetchStarted_not_untouched st (loadMoreHistory st1).2 Hs);
             apply Hun, Hnot; intros [? ?]; congruence.
        -- intros (_ & H1 & H2). apply Hst, Hstart. split; assumption.
      * intros Hc. lia.
    + split.
      * split.
        -- intros Hs. exfalso. exact (fetchStarted_not_untouched _ _ Hs Hself).
        -- intros (Hc & _). lia.
      * intros _. exact Hself.
Qed.

(** After a failed first fetch and one command run, going back to that
    command is within [BUFFER_SIZE] of the edge and starts the fetch
    again. *)
Lemma loadCommand_backfills_witness :
  0 < Z.of_nat (length (history offline)) /\
  fetchStarted offline (exec (loadCommand (Some 0)) offline).
Proof.
  assert (Hacc : 0 < Z.of_nat (length (history offline))) by (vm_compute; reflexivity).
  split; [exact Hacc|].
  destruct (loadCommand_backfills offline 0 Hacc) as [Hret Hrun].
  destruct (Hrun (Hret ltac:(lia))) as (st1 & _ & _ & Hiff & _).
  apply Hiff. vm_compute. repeat split; congruence.
Defined.




(** *** Keys *)

(** C1. With no Alt, Shift or Meta key held and no populated suggestion
    menu: ArrowUp with the cursor on line 1 calls [loadCommand] with
    [commandHistoryIndex + 1], or with [0] when the index is null;
    ArrowDown with the cursor on the last line calls it with
    [commandHistoryIndex - 1] when the index is non-null and above [0],
    and with the null sentinel otherwise. Each then moves the cursor
    ([focusStart], [focusEnd]) and stops the key event. *)
Theorem arrow_keys_load_history (st : State) (ed : Editor) (pos : Position) (ev : KeyEvent) :
  commandEditor st = Some ed ->
  position ed = Some pos ->
  altKey ev = false -> shiftKey ev = false -> metaKey ev = false ->
  completion isSuggestionMenuPopulated st = Normal false ->
  (code ev = "ArrowUp" -> lineNumber pos = 1 ->
   onKeyDown ev st =
     (loadCommand (arrowUpTarget (commandHistoryIndex st));;
      focusStart;; emit StopPropagation;; emit PreventDefault)
       (exec isSuggestionMenuPopulated st))
  /\
  (code ev = "ArrowDown" -> lineNumber pos = getLineCount (value ed) ->
   onKeyDown ev st =
     (loadCommand (arrowDownTarget (commandHistoryIndex st));;
      focusEnd;; emit StopPropagation;; emit PreventDefault)
       (exec isSuggestionMenuPopulated st)).
Proof.
  intros He Hp Halt Hshift Hmeta Hmenu.
  destruct (isSuggestionMenuPopulated_frame st) as [b Hb].
  unfold completion, exec in *. rewrite Hb in *. simpl in Hmenu.
  injection Hmenu as ->.
  rewrite He in Hb. rewrite He. simpl in Hb. simpl.
  split.
  - intros Hcode Hline.
    unfold onKeyDown. unfold bind at 1. unfold get at 1.
    rewrite He. simpl. rewrite Hp. simpl. unfold bind at 1. unfold ret at 1.
    rewrite Halt, Hshift, Hmeta. simpl.
    rewrite Hcode. simpl.
    unfold bind at 1. unfold bind at 1. rewrite Hb.
    unfold ret at 1. rewrite Hline. simpl.
    destruct (commandHistoryIndex st); reflexivity.
  - intros Hcode Hline.
    unfold onKeyDown. unfold bind at 1. unfold get at 1.
    rewrite He. simpl. rewrite Hp. simpl. unfold bind at 1. unfold ret at 1.
    rewrite Halt, Hshift, Hmeta. simpl.
    rewrite Hcode. simpl.
    unfold bind at 1. unfold ret at 1.
    unfold bind at 1. unfold bind at 1. rewrite Hb.
    unfold bind at 1. unfold get at 1. unfold ret at 1. simpl.
    rewrite He. rewrite Hline. rewrite Z.eqb_refl.
    destruct (commandHistoryIndex st) as [i|]; [|reflexivity].
    simpl. destruct (0 <? i); reflexivity.
Qed.

(** From offset 1 (edited to ["b + 1"]): ArrowUp goes to offset 2, which
    shows ["a"]; ArrowDown goes to offset 0, which shows ["c"]. *)
Lemma arrow_keys_load_history_witness :
  onKeyDown arrowUp browsing =
    (loadCommand (Some 2);; focusStart;; emit StopPropagation;; emit PreventDefault)
      (exec isSuggestionMenuPopulated browsing) /\
  onKeyDown arrowDown browsing =
    (loadCommand (Some 0);; focusEnd;; emit StopPropagation;; emit PreventDefault)
      (exec isSuggestionMenuPopulated browsing) /\
  commandHistoryIndex (exec (onKeyDown arrowUp) browsing) = Some 2 /\
  value <$> commandEditor (exec (onKeyDown arrowUp) browsing) = Some "a" /\
  commandHistoryIndex (exec (onKeyDown arrowDown) browsing) = Some 0 /\
  value <$> commandEditor (exec (onKeyDown arrowDown) browsing) = Some "c".
Proof.
  assert (He : exists ed, commandEditor browsing = Some ed /\
                          position ed = Some {| lineNumber := 1; column := 6 |} /\
                          getLineCount (value ed) = 1).
  { eexists. repeat split; reflexivity. }
  destruct He as (ed & He & Hp & Hlines).
  destruct (arrow_keys_load_history browsing ed _ arrowUp He Hp
              eq_refl eq_refl eq_refl eq_refl) as [Hup _].
  destruct (arrow_keys_load_history browsing ed _ arrowDown He Hp
              eq_refl eq_refl eq_refl eq_refl) as [_ Hdown].
  split; [exact (Hup eq_refl eq_refl)|].
  split; [exact (Hdown eq_refl (eq_sym Hlines))|].
  vm_compute. repeat split; reflexivity.
Defined.

(** *** Submitting *)

(** C2. When [processCommand] has run, whatever the state before,
    [commandHistoryIndex] is null and [modifiedCommands] is empty. Enter
    (no Alt, Shift or Meta, no populated suggestion menu) runs it on the
    trimmed text of the editor and then empties the editor, which the
    content listener records as the text of the fresh command: after the
    handler the index is null and the map holds nothing but the empty
    fresh command. *)
Theorem processCommand_resets (st : State) :
  (forall command,
     completion (processCommand command) st = Normal tt /\
     commandHistoryIndex (exec (processCommand command) st) = None /\
     modifiedCommands (exec (processCommand command) st) = ∅)
  /\
  (forall ed pos ev,
     commandEditor st = Some ed ->
     position ed = Some pos ->
     altKey ev = false -> shiftKey ev = false -> metaKey ev = false ->
     code ev <> "ArrowUp" -> code ev <> "ArrowDown" ->
     keyCode ev = KeyCode_Enter ->
     completion isSuggestionMenuPopulated st = Normal false ->
     onKeyDown ev st =
       (emit StopPropagation;; emit PreventDefault;;
        processCommand (trim (value ed));; setValue (Some ""))
         (exec isSuggestionMenuPopulated st)
     /\ commandHistoryIndex (exec (onKeyDown ev) st) = None
     /\ modifiedCommands (exec (onKeyDown ev) st) = {[ None := Some "" ]}
     /\ value <$> commandEditor (exec (onKeyDown ev) st) = Some "").
Proof.
  split.
  - intros command. unfold completion, exec. rewrite processCommand_state. simpl. auto.
  - intros ed pos ev He Hp Halt Hshift Hmeta Hup Hdown Hkey Hmenu.
    destruct (isSuggestionMenuPopulated_frame st) as [b Hb].
    unfold completion, exec in *. rewrite Hb in *. simpl in Hmenu.
    injection Hmenu as ->.
    rewrite He in Hb. rewrite He. simpl in Hb. simpl.
    assert (Hrun : onKeyDown ev st =
       (emit StopPropagation;; emit PreventDefault;;
        processCommand (trim (value ed));; setValue (Some ""))
         (set_commandSuggestionContainer
            match commandSuggestionContainer st with
            | Some w => Some w
            | None => suggestNode ed
            end st)).
    { unfold onKeyDown. unfold bind at 1. unfold get at 1.
      rewrite He. simpl. rewrite Hp. simpl. unfold bind at 1. unfold ret at 1.
      rewrite Halt, Hshift, Hmeta. simpl.
      apply String.eqb_neq in Hup, Hdown. rewrite Hup, Hdown, Hkey. simpl.
      unfold bind at 1. unfold ret at 1.
      unfold bind at 1. unfold ret at 1.
      unfold bind at 1. unfold bind at 1. rewrite Hb. unfold ret at 1. simpl.
      unfold bind at 1. unfold emit at 1, modify at 1.
      unfold bind at 1. unfold emit at 1, modify at 1.
      unfold bind at 1. unfold get at 1. simpl. rewrite He.
      reflexivity. }
    split; [exact Hrun|].
    rewrite Hrun.
    unfold bind, emit, modify. cbv beta iota.
    rewrite processCommand_state.
    erewrite setValue_editor by (simpl; exact He).
    simpl. repeat split; reflexivity.
Qed.

(** Enter while browsing offset 1 with two recorded texts: the index goes
    back to null and only the emptied fresh command stays recorded. *)
Lemma processCommand_resets_witness :
  commandHistoryIndex browsing = Some 1 /\
  modifiedCommands browsing = {[ Some 1 := Some "b + 1"; Some 0 := Some "c" ]} /\
  commandHistoryIndex (exec (onKeyDown enterKey) browsing) = None /\
  modifiedCommands (exec (onKeyDown enterKey) browsing) = {[ None := Some "" ]}.
Proof.
  split; [reflexivity|]. split; [vm_compute; reflexivity|].
  assert (He : exists ed, commandEditor browsing = Some ed /\
                          position ed = Some {| lineNumber := 1; column := 6 |}).
  { eexists. split; reflexivity. }
  destruct He as (ed & He & Hp).
  destruct (proj2 (processCommand_resets browsing) ed _ enterKey He Hp
              eq_refl eq_refl eq_refl ltac:(discriminate) ltac:(discriminate)
              eq_refl eq_refl) as (_ & Hi & Hm & _).
  split; [exact Hi | exact Hm].
Defined.

(** *** Errors of the fetch *)

(** C6. [loadMoreHistory] never hands an exception to its caller: its
    first part returns, and so does every continuation after an [await],
    however the awaited promise ended. When the promise rejects with
    [err], all that changes is that [loadingPromise] becomes undefined
    and one line is logged: the debug line of a cancellation when [err] is
    the cancellation error (nothing is loaded, no error is logged), and
    the error line carrying [err] otherwise. *)
Theorem loadMoreHistory_swallows_errors (st : State) :
  completion loadMoreHistory st = Normal tt /\
  (forall r o, completion (loadMoreHistory_resume r o) st = Normal tt) /\
  (forall r err,
     exec (loadMoreHistory_resume r (Rejected err)) st =
       set_effects
         (effects st ++
            [if isCanceled err
             then LogDebug2 "Promise canceled, not loading history"
             else LogError "Error fetching history" err])
         (set_loadingPromise None st)).
Proof.
  split; [exact (proj1 (loadMoreHistory_frame st))|].
  split.
  - intros r o. unfold completion, loadMoreHistory_resume, try_catch.
    destruct r as [|table], o as [t|items|err]; simpl;
      try rewrite loadMoreHistory_catch_state; try reflexivity.
    rewrite loadMoreHistory_viewport_state. reflexivity.
  - intros r err. unfold exec, loadMoreHistory_resume, try_catch.
    destruct r; simpl; rewrite loadMoreHistory_catch_state; reflexivity.
Qed.

(** *** Cancelling the fetch *)

Lemma unmount_state (st : State) (p : PromiseRef) (cp : CancelablePromise) :
  loadingPromise st = Some p ->
  promises st !! p = Some cp ->
  settled cp = false ->
  exec (dispatch Unmount) st =
    set_effects
      (effects st ++
         [ResizeObserverDisconnect; PromiseCancel p] ++
         (if isNull (commandEditor st) then [] else [CloseDocument; EditorDispose]) ++
         [LogDebug2 "Promise canceled, not loading history"])
      (set_loadingPromise None
         (set_commandEditor None
            (set_promises (alter markCanceled p (promises st)) st))).
Proof.
  intros Hl Hp Hs.
  unfold exec, dispatch, componentWillUnmount, cancel, destroyCommandEditor,
    deliverCancellation.
  unfold_m. simpl. rewrite Hl. simpl.
  destruct (commandEditor st) as [ed|] eqn:He; simpl;
    rewrite Hl, list_lookup_alter_eq, Hp; simpl; rewrite Hs; simpl;
    unfold loadMoreHistory_resume, try_catch;
    destruct (wraps cp); simpl;
    apply state_ext; simpl; rewrite <- ?app_assoc, ?He; reflexivity.
Qed.

Lemma settle_cancelled (st : State) (p : PromiseRef) (cp : CancelablePromise)
    (o : Outcome) (table : Table) :
  promises st !! p = Some cp ->
  settled cp = false ->
  hasCanceled cp = true ->
  resolvesWith (wraps cp) o table ->
  settle p o st =
    (Normal tt,
     set_effects (effects st ++ [TableClose table])
       (set_promises (alter markSettled p (promises st)) st)).
Proof.
  intros Hp Hs Hc Hr. unfold settle, cleanup. unfold_m. rewrite Hp, Hs, Hc.
  destruct (wraps cp) as [|t], o as [t'|items|err]; simpl in *; try contradiction;
    subst; reflexivity.
Qed.

(** C5, as amended. For a promise [p] whose request is pending: while [p]
    is the fetch in flight, a further [loadMoreHistory] returns at once
    and changes nothing, so the fetch in flight is neither cancelled nor
    replaced; unmounting cancels it, [loadingPromise] becomes undefined and
    the history and the buffer index stay as they were; and when the
    request behind a cancelled [p] resolves later, the table is closed and
    nothing else happens: no page is loaded. *)
Theorem fetch_cancelled_on_unmount_only (st : State) (p : PromiseRef) (cp : CancelablePromise) :
  promises st !! p = Some cp ->
  settled cp = false ->
  (loadingPromise st = Some p -> loadMoreHistory st = (Normal tt, st))
  /\
  (loadingPromise st = Some p ->
   promises (exec (dispatch Unmount) st) !! p = Some (markCanceled cp) /\
   loadingPromise (exec (dispatch Unmount) st) = None /\
   PromiseCancel p ∈ effects (exec (dispatch Unmount) st) /\
   history (exec (dispatch Unmount) st) = history st /\
   bufferIndex (exec (dispatch Unmount) st) = bufferIndex st)
  /\
  (hasCanceled cp = true ->
   forall o table, resolvesWith (wraps cp) o table ->
     completion (settle p o) st = Normal tt /\
     effects (exec (settle p o) st) = (effects st ++ [TableClose table])%list /\
     promises (exec (settle p o) st) !! p = Some (markSettled cp) /\
     loadingPromise (exec (settle p o) st) = loadingPromise st /\
     history (exec (settle p o) st) = history st /\
     bufferIndex (exec (settle p o) st) = bufferIndex st).
Proof.
  intros Hp Hs. split; [apply loadMoreHistory_in_flight|]. split.
  - intros Hl. rewrite (unmount_state st p cp Hl Hp Hs). simpl.
    rewrite list_lookup_alter_eq, Hp. simpl.
    repeat split; try reflexivity.
    rewrite elem_of_app. right. rewrite elem_of_cons. right.
    rewrite elem_of_cons. left. reflexivity.
  - intros Hc o table Hr. unfold completion, exec.
    rewrite (settle_cancelled st p cp o table Hp Hs Hc Hr). simpl.
    rewrite list_lookup_alter_eq, Hp. simpl. repeat split; reflexivity.
Qed.

(** Unmounting during the first fetch cancels promise [0]; when the table
    arrives after that it is closed and the history stays empty. *)
Lemma fetch_cancelled_on_unmount_only_witness :
  loadingPromise unmounted = None /\
  PromiseCancel 0%nat ∈ effects unmounted /\
  effects (exec (settle 0%nat (ResolvedTable sampleTable)) unmounted) =
    (effects unmounted ++ [TableClose sampleTable])%list /\
  history (exec (settle 0%nat (ResolvedTable sampleTable)) unmounted) = [].
Proof.
  destruct (fetch_cancelled_on_unmount_only fetching 0%nat
              {| wraps := GetTable; hasCanceled := false; settled := false |}
              eq_refl eq_refl) as (_ & Hun & _).
  destruct (Hun eq_refl) as (_ & Hl & Hc & _).
  destruct (fetch_cancelled_on_unmount_only unmounted 0%nat
              {| wraps := GetTable; hasCanceled := true; settled := false |}
              eq_refl eq_refl) as (_ & _ & Hlate).
  destruct (Hlate eq_refl (ResolvedTable sampleTable) sampleTable eq_refl)
    as (_ & He & _ & _ & Hh & _).
  split; [exact Hl|]. split; [exact Hc|]. split; [exact He|].
  rewrite Hh. reflexivity.
Defined.

(** C5 as stated fails: a request for more history made while a fetch is
    in flight does not supersede it. The call returns with the state as it
    was: promise [0] is still the one awaited, it is not cancelled, and
    the storage was asked once. The page that will be loaded is the one of
    the earlier request. *)
Lemma second_fetch_is_dropped :
  loadingPromise fetching = Some 0%nat /\
  loadMoreHistory fetching = (Normal tt, fetching) /\
  promises (exec loadMoreHistory fetching) =
    [{| wraps := GetTable; hasCanceled := false; settled := false |}] /\
  effects (exec loadMoreHistory fetching) = [StorageGetTable "python" "" 0].
Proof. repeat split; reflexivity. Qed.

(** *** No repeated commands *)

Lemma filterFrom_dropRepeats (pre rest : list CommandHistoryStorageItem) :
  filterFrom differsFromPrevious (pre ++ rest) (length pre) rest =
    dropRepeats (name <$> last pre) rest.
Proof.
  revert pre. induction rest as [|x rest IH]; intros pre; [reflexivity|].
  simpl.
  replace (pre ++ x :: rest)%list with ((pre ++ [x]) ++ rest)%list
    by (rewrite <- app_assoc; reflexivity).
  replace (S (length pre)) with (length (pre ++ [x])%list)
    by (rewrite length_app; simpl; lia).
  rewrite IH. rewrite last_snoc. simpl.
  unfold differsFromPrevious.
  destruct pre as [|p pre'] using rev_ind.
  - reflexivity.
  - rewrite last_snoc. simpl.
    rewrite length_app. simpl.
    replace (length pre' + 1 =? 0)%nat with false by (symmetry; apply Nat.eqb_neq; lia).
    replace (length pre' + 1 - 1)%nat with (length pre') by lia.
    rewrite <- app_assoc. rewrite <- app_assoc. simpl.
    rewrite list_lookup_middle by reflexivity. simpl.
    destruct (String.eqb (name x) (name p)); reflexivity.
Qed.

(** The filter of the page, written with positions in the source, drops
    exactly the items that repeat the name before them. *)
Lemma filter3_dropRepeats (items : list CommandHistoryStorageItem) :
  filter3 differsFromPrevious items = dropRepeats None items.
Proof. exact (filterFrom_dropRepeats [] items). Qed.

Lemma dropRepeats_noRepeats (prev : option string) (items : list CommandHistoryStorageItem) :
  noRepeats prev (map name (dropRepeats prev items)).
Proof.
  revert prev. induction items as [|x rest IH]; intros prev; simpl; [exact I|].
  destruct prev as [n|].
  - destruct (String.eqb_spec (name x) n) as [->|Hne].
    + apply IH.
    + simpl. split; [congruence | apply IH].
  - simpl. split; [discriminate | apply IH].
Qed.

Lemma dropRepeats_names (prev : option string) (items : list CommandHistoryStorageItem) (n : string) :
  In n (map name items) <->
  In n (map name (dropRepeats prev items)) \/
  (exists x rest, items = x :: rest /\ prev = Some n /\ name x = n).
Proof.
  revert prev. induction items as [|x rest IH]; intros prev; simpl.
  - split; [tauto|]. intros [[]|(x & rest & H & _)]. discriminate.
  - rewrite (IH (Some (name x))).
    destruct prev as [m|].
    + destruct (String.eqb_spec (name x) m) as [E|Hne]; simpl.
      * split.
        -- intros [H|[H|(y & r & -> & [= H1] & H2)]].
           ++ right. exists x, rest. subst. auto.
           ++ auto.
           ++ right. exists x, (y :: r). subst. split; [reflexivity|]. split; congruence.
        -- intros [H|(y & r & [= -> ->] & [= ->] & H2)]; auto.
      * split.
        -- intros [H|[H|(y & r & -> & [= H1] & H2)]]; [tauto | tauto |].
           left. left. congruence.
        -- intros [[H|H]|(y & r & [= -> ->] & [= ->] & H2)]; [tauto | tauto | tauto].
    + simpl. split.
      * intros [H|[H|(y & r & -> & [= H1] & H2)]]; [tauto | tauto |].
        left. left. congruence.
      * intros [[H|H]|(y & r & _ & [=] & _)]; tauto.
Qed.

Lemma index_last {A} (l : list A) :
  l <> [] -> Js.index l (Z.of_nat (length l) - 1) = last l.
Proof.
  intros Hl. unfold Js.index.
  destruct l as [|x l']; [congruence|].
  destruct (Z.ltb_spec (Z.of_nat (length (x :: l')) - 1) 0) as [H|_];
    [simpl in H; lia|].
  rewrite last_lookup. f_equal. simpl. lia.
Qed.

(** The test before [history.push]. *)
Lemma pushes_iff (command : string) (h : list string) :
  negb (String.eqb command "") &&
    ((length h =? 0)%nat ||
     strictNe command (Js.index h (Z.of_nat (length h) - 1)))
  = bool_decide (command <> "" /\ last h <> Some command).
Proof.
  assert (Hlast : h <> [] ->
            strictNe command (Js.index h (Z.of_nat (length h) - 1))
            = bool_decide (last h <> Some command)).
  { intros Hh. rewrite index_last by exact Hh.
    destruct (last h) as [x|]; simpl.
    - destruct (String.eqb_spec command x) as [->|Hx]; simpl; symmetry.
      + apply bool_decide_eq_false. tauto.
      + apply bool_decide_eq_true. congruence.
    - reflexivity. }
  destruct (String.eqb_spec command "") as [Hc|Hc]; simpl.
  - symmetry. apply bool_decide_eq_false. tauto.
  - destruct h as [|x h'].
    + simpl. symmetry. apply bool_decide_eq_true. split; [exact Hc | discriminate].
    + rewrite Hlast by discriminate. simpl.
      destruct (bool_decide_reflect (last (x :: h') <> Some command)) as [Hl|Hl];
        symmetry.
      * apply bool_decide_eq_true. tauto.
      * apply bool_decide_eq_false. tauto.
Qed.

Lemma processCommand_history (command : string) (st : State) :
  history (exec (processCommand command) st) =
    if bool_decide (command <> "" /\ last (history st) <> Some command)
    then (history st ++ [command])%list else history st.
Proof.
  unfold exec. rewrite processCommand_state. simpl. rewrite pushes_iff. reflexivity.
Qed.

Lemma processCommand_twice (command : string) (st : State) :
  history (exec (processCommand command;; processCommand command) st) =
  history (exec (processCommand command) st).
Proof.
  unfold exec at 1. unfold bind.
  destruct (processCommand command st) as [c st1] eqn:E.
  assert (Hst1 : st1 = exec (processCommand command) st)
    by (unfold exec; rewrite E; reflexivity).
  rewrite processCommand_state in E. injection E as <- _.
  change (history (exec (processCommand command) st1)
          = history (exec (processCommand command) st)).
  rewrite (processCommand_history command st1).
  rewrite Hst1. rewrite (processCommand_history command st).
  destruct (bool_decide_reflect (command <> "" /\ last (history st) <> Some command))
    as [H1|H1].
  - rewrite last_snoc. case_bool_decide as H2; [tauto | reflexivity].
  - case_bool_decide as H2; [tauto | reflexivity].
Qed.

(** C10. [processCommand] appends the command to the history exactly when
    it is not empty and differs from the last entry, and appends nothing
    otherwise; so submitting the same command twice in a row adds it once.
    When a fetched page arrives, [loadMoreHistory] puts in front of the
    history the names of the page, oldest first, without the items that
    repeat the name of the item before them in the page: no two
    neighbours of what is added are equal, and every name of the page is
    still there. *)
Theorem history_without_repeats (st : State) :
  (forall command,
     history (exec (processCommand command) st) =
       if bool_decide (command <> "" /\ last (history st) <> Some command)
       then (history st ++ [command])%list else history st)
  /\
  (forall command,
     history (exec (processCommand command;; processCommand command) st) =
     history (exec (processCommand command) st))
  /\
  (forall table items,
     history (exec (loadMoreHistory_resume (GetViewportData table)
                      (ResolvedViewport items)) st)
       = (rev (map name (dropRepeats None items)) ++ history st)%list /\
     noRepeats None (map name (dropRepeats None items)) /\
     (forall n, In n (map name items) <-> In n (map name (dropRepeats None items)))).
Proof.
  split; [intros command; apply processCommand_history|].
  split; [intros command; apply processCommand_twice|].
  intros table items. split; [|split].
  - unfold exec, loadMoreHistory_resume, try_catch.
    rewrite loadMoreHistory_viewport_state. simpl.
    rewrite filter3_dropRepeats. reflexivity.
  - apply dropRepeats_noRepeats.
  - intros n. destruct (dropRepeats_names None items n) as [H1 H2]. split.
    + intros H. destruct (H1 H) as [H'|(x & rest & _ & [=] & _)]. exact H'.
    + intros H. apply H2. left. exact H.
Qed.

(** *** Properties kept by every handler *)

Section Preserves.

Variable Inv : State -> Prop.

Lemma preserves_ret {A} (a : A) : preserves Inv (ret a).
Proof. intros st H. exact H. Qed.

Lemma preserves_throw {A} (err : Error) : preserves Inv (@throw A err).
Proof. intros st H. exact H. Qed.

Lemma preserves_get : preserves Inv get.
Proof. intros st H. exact H. Qed.

Lemma preserves_bind {A B} (m : M A) (k : A -> M B) :
  preserves Inv m -> (forall a, preserves Inv (k a)) -> preserves Inv (bind m k).
Proof.
  intros Hm Hk st H. unfold bind. specialize (Hm st H).
  destruct (m st) as [[a|err] st1]; simpl in *; [|exact Hm].
  apply Hk. exact Hm.
Qed.

Lemma preserves_try_catch {A} (body : M A) (handler : Error -> M A) :
  preserves Inv body -> (forall err, preserves Inv (handler err)) ->
  preserves Inv (try_catch body handler).
Proof.
  intros Hb Hh st H. unfold try_catch. specialize (Hb st H).
  destruct (body st) as [[a|err] st1]; simpl in *; [exact Hb|].
  apply Hh. exact Hb.
Qed.

Lemma preserves_modify (f : State -> State) :
  (forall st, Inv st -> Inv (f st)) -> preserves Inv (modify f).
Proof. intros Hf st H. apply Hf. exact H. Qed.

Lemma preserves_assertNotNull {A} (v : option A) : preserves Inv (assertNotNull v).
Proof. destruct v; [apply preserves_ret | apply preserves_throw]. Qed.

Lemma run_invariant :
  (forall ev, preserves Inv (dispatch ev)) ->
  forall evs st, Inv st -> Inv (run evs st).
Proof.
  intros Hd evs. induction evs as [|ev evs IH]; intros st H; simpl; [exact H|].
  apply IH. apply Hd. exact H.
Qed.

End Preserves.

Create HintDb preserves discriminated.

#[local] Hint Resolve preserves_ret preserves_throw preserves_get
  preserves_assertNotNull : preserves.

(** One step through a handler; [frame] closes the side condition of
    [preserves_modify] for the property at hand. *)
Ltac preserves_step frame :=
  first
    [ solve [auto with preserves nocore]
    | apply preserves_modify; solve [frame]
    | apply preserves_bind; [|intros ?]
    | apply preserves_try_catch; [|intros ?]
    | match goal with
      | |- preserves _ (match ?x with _ => _ end) => destruct x
      | |- preserves _ (if ?b then _ else _) => destruct b
      end ].

(** *** The index stays inside the history *)

Ltac index_frame := intros ? H; exact H || exact I.

Ltac index_auto := repeat preserves_step index_frame.

Lemma index_emit (e : Effect) : preserves indexInRange (emit e).
Proof. apply preserves_modify. index_frame. Qed.

#[local] Hint Resolve index_emit : preserves.

Lemma index_setValue v : preserves indexInRange (setValue v).
Proof. unfold setValue, onDidChangeModelContent. index_auto. Qed.

Lemma index_focusStart : preserves indexInRange focusStart.
Proof. unfold focusStart. index_auto. Qed.

Lemma index_focusEnd : preserves indexInRange focusEnd.
Proof. unfold focusEnd. index_auto. Qed.

Lemma index_focus : preserves indexInRange focus.
Proof. unfold focus. index_auto. Qed.

Lemma index_isSuggestionMenuPopulated : preserves indexInRange isSuggestionMenuPopulated.
Proof. unfold isSuggestionMenuPopulated, isSuggestionMenuActive. index_auto. Qed.

Lemma index_loadMoreHistory : preserves indexInRange loadMoreHistory.
Proof.
  intros st H. rewrite loadMoreHistory_cases. destruct (_ || _); exact H.
Qed.

Lemma index_loadMoreHistory_resume r o :
  preserves indexInRange (loadMoreHistory_resume r o).
Proof.
  intros st H. unfold loadMoreHistory_resume, try_catch.
  destruct r as [|table], o as [t|items|err]; simpl;
    try rewrite loadMoreHistory_catch_state; try exact H.
  rewrite loadMoreHistory_viewport_state.
  unfold indexInRange in *. simpl.
  destruct (commandHistoryIndex st); [|exact I].
  rewrite length_app. lia.
Qed.

Lemma index_loadCommand index :
  match index with Some i => 0 <= i | None => True end ->
  preserves indexInRange (loadCommand index).
Proof.
  intros Hidx st Hin.
  assert (Hdone : forall st1,
            history st1 = history st -> commandHistoryIndex st1 = index ->
            accepted index st -> indexInRange st1).
  { intros st1 Hh Hi Hacc. unfold indexInRange. rewrite Hi, Hh.
    destruct index as [i|]; simpl in *; [lia | exact I]. }
  destruct index as [i|].
  - destruct (Z.le_gt_cases (Z.of_nat (length (history st))) i) as [Hge|Hlt].
    + rewrite loadCommand_beyond by exact Hge. exact Hin.
    + rewrite loadCommand_spec by (simpl; lia).
      destruct (loaded (Some i) st) as [st1|] eqn:Hl.
      * destruct (backfill_frame (Some i) st1) as (_ & _ & Hi & Hh & _).
        destruct (loaded_frame _ _ _ Hl) as (_ & _ & Hh1 & _ & _ & _ & _ & Hi1).
        apply Hdone; [congruence | congruence | simpl; lia].
      * apply Hdone; [reflexivity | reflexivity | simpl; lia].
  - rewrite loadCommand_spec by exact I.
    rewrite (loaded_shown None "" st eq_refl). simpl.
    destruct (commandEditor st); apply Hdone; try reflexivity; exact I.
Qed.

Lemma index_processCommand command : preserves indexInRange (processCommand command).
Proof. intros st _. rewrite processCommand_state. exact I. Qed.

#[local] Hint Resolve index_setValue index_focusStart index_focusEnd index_focus
  index_isSuggestionMenuPopulated index_loadMoreHistory index_loadMoreHistory_resume
  index_processCommand : preserves.

(** The offsets the key handler passes on are not negative, because the
    index it starts from is inside the history. *)
Lemma index_onKeyDown (ev : KeyEvent) : preserves indexInRange (onKeyDown ev).
Proof.
  intros st Hin. unfold onKeyDown. unfold bind at 1. unfold get at 1.
  match goal with |- indexInRange (snd (?m st)) =>
    cut (preserves indexInRange m); [intros H; apply H; exact Hin|] end.
  unfold indexInRange in Hin.
  assert (Hup : preserves indexInRange
                  (match commandHistoryIndex st with
                   | Some i => loadCommand (Some (i + 1))
                   | None => loadCommand (Some 0)
                   end)).
  { destruct (commandHistoryIndex st) as [i|]; apply index_loadCommand; simpl; lia. }
  assert (Hdown : preserves indexInRange
                    (match commandHistoryIndex st with
                     | Some i => if 0 <? i then loadCommand (Some (i - 1))
                                 else loadCommand None
                     | None => loadCommand None
                     end)).
  { destruct (commandHistoryIndex st) as [i|]; [|apply index_loadCommand; exact I].
    destruct (Z.ltb_spec 0 i); apply index_loadCommand; simpl; try exact I; lia. }
  repeat first [ exact Hup | exact Hdown | preserves_step index_frame ].
Qed.

Lemma index_dispatch (ev : Event) : preserves indexInRange (dispatch ev).
Proof.
  destruct ev; simpl.
  - unfold componentDidMount, initCommandEditor. index_auto.
  - unfold componentWillUnmount, deliverCancellation, cancel, destroyCommandEditor.
    index_auto.
  - apply index_onKeyDown.
  - unfold userEdit, onDidChangeModelContent. index_auto.
  - unfold cursorMove. index_auto.
  - unfold suggestMenu. index_auto.
  - unfold setConsoleText. index_auto.
  - unfold clear. index_auto.
  - unfold settle, cleanup. index_auto.
Qed.

(** In every state the component reaches from its constructor, by any
    sequence of mounting, keys, edits, calls of its public methods,
    outcomes of its requests and unmounting, [commandHistoryIndex] is null
    or an offset inside the loaded history; hence every lookup
    [loadCommand] makes for the key handler is inside the history. *)
Theorem index_stays_in_history (p : Props) (now : Z) (evs : list Event) :
  indexInRange (run evs (constructor p now)).
Proof. apply (run_invariant indexInRange index_dispatch). exact I. Qed.

(** *** At most one fetch is in flight *)

Ltac flight_frame := intros ? H; exact H.

Ltac flight_auto := repeat preserves_step flight_frame.

Lemma flight_emit (e : Effect) : preserves singleFlight (emit e).
Proof. apply preserves_modify. flight_frame. Qed.

#[local] Hint Resolve flight_emit : preserves.

Lemma singleFlight_idle (st : State) :
  singleFlight st -> loadingPromise st = None -> noLive st.
Proof.
  intros [H1 _] Hl q cq Hq Hlive. specialize (H1 q cq Hq Hlive). congruence.
Qed.

Lemma noLive_idle (st : State) :
  noLive st -> loadingPromise st = None -> singleFlight st.
Proof.
  intros Hn Hl. split.
  - intros q cq Hq Hlive. exfalso. exact (Hn q cq Hq Hlive).
  - intros p Hp. congruence.
Qed.

(** A new wrapper joins wrappers none of which is live and becomes the
    one in flight. *)
Lemma singleFlight_start (st st' : State) (r : Request) :
  noLive st ->
  promises st' = (promises st ++ [{| wraps := r; hasCanceled := false; settled := false |}])%list ->
  loadingPromise st' = Some (length (promises st)) ->
  singleFlight st'.
Proof.
  intros Hn Hp Hl. split.
  - intros q cq Hq Hlive. rewrite Hl. f_equal. rewrite Hp in Hq.
    destruct (decide (q < length (promises st))%nat) as [Hlt|Hge].
    + rewrite lookup_app_l in Hq by exact Hlt. exfalso. exact (Hn q cq Hq Hlive).
    + apply lookup_lt_Some in Hq. rewrite length_app in Hq. simpl in Hq. lia.
  - intros p. rewrite Hl. intros [= <-]. eexists. rewrite Hp.
    rewrite lookup_app_r by lia. rewrite Nat.sub_diag. simpl.
    split; [reflexivity | split; reflexivity].
Qed.

Lemma flight_loadMoreHistory : preserves singleFlight loadMoreHistory.
Proof.
  intros st H. rewrite loadMoreHistory_cases.
  destruct (loadingPromise st) as [p|] eqn:Hl; simpl; [exact H|].
  destruct (isNull (bufferIndex st)); simpl; [exact H|].
  eapply singleFlight_start; [apply singleFlight_idle; eassumption | reflexivity | reflexivity].
Qed.

Lemma resume_from_noLive (r : Request) (o : Outcome) (st : State) :
  outcomeOf r o = true ->
  noLive st -> singleFlight (snd (loadMoreHistory_resume r o st)).
Proof.
  intros Ho Hn. unfold loadMoreHistory_resume, try_catch.
  destruct r as [|table], o as [t|items|err]; try discriminate Ho.
  - simpl. eapply singleFlight_start; [exact Hn | reflexivity | reflexivity].
  - simpl. rewrite loadMoreHistory_catch_state.
    apply noLive_idle; [exact Hn | reflexivity].
  - rewrite loadMoreHistory_viewport_state.
    apply noLive_idle; [exact Hn | reflexivity].
  - simpl. rewrite loadMoreHistory_catch_state.
    apply noLive_idle; [exact Hn | reflexivity].
Qed.

Lemma flight_settle p o : preserves singleFlight (settle p o).
Proof.
  intros st H. unfold settle. unfold bind at 1. unfold get at 1.
  destruct (promises st !! p) as [cp|] eqn:Hp; [|exact H].
  destruct (settled cp) eqn:Hs; [exact H|].
  destruct (outcomeOf (wraps cp) o) eqn:Ho; [|exact H]. simpl.
  unfold bind at 1. unfold modify at 1.
  destruct (hasCanceled cp) eqn:Hc.
  - (* behind a cancelled wrapper: only the cleanup *)
    assert (Hframe : singleFlight
                       (set_promises (alter markSettled p (promises st)) st)).
    { destruct H as [H1 H2]. split; simpl.
      - intros q cq Hq Hlive. apply (H1 q cq); [|exact Hlive].
        destruct (decide (p = q)) as [<-|Hne].
        + rewrite list_lookup_alter_eq, Hp in Hq. injection Hq as <-.
          destruct Hlive as [Hl _]. discriminate.
        + rewrite list_lookup_alter_ne in Hq by exact Hne. exact Hq.
      - intros p' Hp'. destruct (H2 p' Hp') as (cp' & Hcp' & Hlive).
        exists cp'. split; [|exact Hlive].
        destruct (decide (p = p')) as [<-|Hne].
        + rewrite Hp in Hcp'. injection Hcp' as <-.
          destruct Hlive as [_ Hl]. congruence.
        + rewrite list_lookup_alter_ne by exact Hne. exact Hcp'. }
    revert Hframe. generalize (set_promises (alter markSettled p (promises st)) st).
    intros s Hs'. unfold cleanup.
    destruct (wraps cp), o; simpl; exact Hs'.
  - (* the wrapper in flight settles: the fetch goes on *)
    assert (Hl : loadingPromise st = Some p).
    { destruct H as [H1 _]. apply (H1 p cp Hp). split; assumption. }
    rewrite bool_decide_eq_true_2 by exact Hl.
    apply resume_from_noLive; [exact Ho|].
    intros q cq Hq Hlive. simpl in Hq.
    destruct (decide (p = q)) as [<-|Hne].
    + rewrite list_lookup_alter_eq, Hp in Hq. injection Hq as <-.
      destruct Hlive as [Hl' _]. discriminate.
    + rewrite list_lookup_alter_ne in Hq by exact Hne.
      destruct H as [H1 _]. specialize (H1 q cq Hq Hlive). congruence.
Qed.

Lemma flight_unmount : preserves singleFlight (dispatch Unmount).
Proof.
  intros st H. destruct (loadingPromise st) as [p|] eqn:Hl.
  - destruct (proj2 H p Hl) as (cp & Hp & Hs & Hc).
    change (singleFlight (exec (dispatch Unmount) st)).
    rewrite (unmount_state st p cp Hl Hp Hs).
    apply noLive_idle; [|reflexivity].
    intros q cq Hq Hlive. simpl in Hq.
    destruct (decide (p = q)) as [<-|Hne].
    + rewrite list_lookup_alter_eq, Hp in Hq. injection Hq as <-.
      destruct Hlive as [_ Hl']. discriminate.
    + rewrite list_lookup_alter_ne in Hq by exact Hne.
      pose proof (proj1 H q cq Hq Hlive). congruence.
  - simpl. unfold componentWillUnmount, destroyCommandEditor, deliverCancellation.
    unfold_m.
    destruct (commandEditor st) as [ed|] eqn:He;
      repeat (progress (simpl; rewrite ?Hl, ?He)); exact H.
Qed.

Lemma flight_setValue v : preserves singleFlight (setValue v).
Proof. unfold setValue, onDidChangeModelContent. flight_auto. Qed.

Lemma flight_processCommand command : preserves singleFlight (processCommand command).
Proof. intros st H. rewrite processCommand_state. exact H. Qed.

#[local] Hint Resolve flight_loadMoreHistory flight_setValue flight_processCommand
  flight_settle : preserves.

Lemma flight_loadCommand index : preserves singleFlight (loadCommand index).
Proof. unfold loadCommand. flight_auto. Qed.

#[local] Hint Resolve flight_loadCommand : preserves.

Lemma flight_dispatch (ev : Event) : preserves singleFlight (dispatch ev).
Proof.
  destruct ev; try apply flight_unmount; simpl.
  - unfold componentDidMount, initCommandEditor. flight_auto.
  - unfold onKeyDown, isSuggestionMenuPopulated, isSuggestionMenuActive,
      focusStart, focusEnd.
    flight_auto.
  - unfold userEdit, onDidChangeModelContent. flight_auto.
  - unfold cursorMove. flight_auto.
  - unfold suggestMenu. flight_auto.
  - unfold setConsoleText, focusEnd. flight_auto.
  - unfold clear, focus. flight_auto.
  - apply flight_settle.
Qed.

(** In every state the component reaches from its constructor at most one
    request for history is pending behind a wrapper that was not
    cancelled, and it is the one [loadingPromise] refers to: requests are
    made one after the other and none supersedes another. *)
Theorem one_fetch_in_flight (p : Props) (now : Z) (evs : list Event) :
  singleFlight (run evs (constructor p now)).
Proof.
  apply (run_invariant singleFlight flight_dispatch).
  split.
  - intros q cq Hq. simpl in Hq. rewrite lookup_nil in Hq. discriminate.
  - intros q Hq. discriminate.
Qed.

(** *** Edits are kept while the user moves through the history *)

(** What [loadCommand] leaves behind on a mounted component, for an index
    it accepts and finds. *)
Lemma loadCommand_mounted (index : option Z) (st : State) (ed : Editor) :
  commandEditor st = Some ed ->
  inHistory index st ->
  exists h,
    historyValue index st = Some h /\
    loadCommand index st = (Normal tt, exec (loadCommand index) st) /\
    commandEditor (exec (loadCommand index) st) = Some (withValue (shown index h st) ed) /\
    commandHistoryIndex (exec (loadCommand index) st) = index /\
    modifiedCommands (exec (loadCommand index) st)
      = <[index := Some (shown index h st)]> (modifiedCommands st) /\
    history (exec (loadCommand index) st) = history st.
Proof.
  intros He Hin.
  assert (Hh : exists h, historyValue index st = Some h).
  { destruct index as [i|]; simpl in *.
    - destruct (history_lookup_in_range (history st) i Hin) as (h & Hh & _). eauto.
    - eauto. }
  destruct Hh as [h Hh]. exists h. split; [exact Hh|].
  assert (Hacc : accepted index st).
  { destruct index as [i|]; simpl in *; [lia | exact I]. }
  unfold exec. rewrite loadCommand_spec by exact Hacc.
  rewrite (loaded_shown index h st Hh), He.
  match goal with |- context [backfill ?ix ?s] =>
    destruct (backfill_frame ix s) as (Hc & Hed & Hx & Hhi & Hm) end.
  unfold completion, exec in *.
  match goal with |- context [backfill ?ix ?s] =>
    destruct (backfill ix s) as [c s'] end.
  simpl in *. subst c. rewrite Hed, Hx, Hhi, Hm. simpl. repeat split; reflexivity.
Qed.

Lemma shown_recorded (index : option Z) (h text : string) (st : State) :
  recorded index st = Some text -> shown index h st = text.
Proof.
  unfold recorded, shown. destruct (modifiedCommands st !! index) as [[e|]|]; simpl; congruence.
Qed.

(** A recorded text is what [loadCommand] shows for its index. *)
Lemma loadCommand_recorded (i : option Z) (text : string) (st : State) (ed : Editor) :
  commandEditor st = Some ed ->
  inHistory i st ->
  recorded i st = Some text ->
  loadCommand i st = (Normal tt, exec (loadCommand i) st) /\
  editorText (exec (loadCommand i) st) = Some text /\
  commandHistoryIndex (exec (loadCommand i) st) = i /\
  history (exec (loadCommand i) st) = history st.
Proof.
  intros He Hi Hr.
  destruct (loadCommand_mounted i st ed He Hi) as (h & _ & Hc & He' & Hx & _ & Hh).
  unfold editorText. rewrite He', (shown_recorded i h text st Hr).
  repeat split; assumption.
Qed.

(** Looking at another command does not lose a recorded text. *)
Lemma loadCommand_keeps_recorded (i j : option Z) (text : string) (st : State) (ed : Editor) :
  commandEditor st = Some ed ->
  inHistory j st ->
  recorded i st = Some text ->
  loadCommand j st = (Normal tt, exec (loadCommand j) st) /\
  (exists ed', commandEditor (exec (loadCommand j) st) = Some ed') /\
  history (exec (loadCommand j) st) = history st /\
  recorded i (exec (loadCommand j) st) = Some text.
Proof.
  intros He Hj Hr.
  destruct (loadCommand_mounted j st ed He Hj) as (h & _ & Hc & He' & _ & Hm & Hh).
  split; [exact Hc|]. split; [eauto|]. split; [exact Hh|].
  unfold recorded. rewrite Hm. destruct (decide (j = i)) as [->|Hne].
  - rewrite lookup_insert_eq. simpl. f_equal. apply shown_recorded. exact Hr.
  - rewrite lookup_insert_ne by exact Hne. exact Hr.
Qed.

Lemma visit_recorded (i j : option Z) (text : string) (st : State) (ed : Editor) :
  commandEditor st = Some ed ->
  inHistory i st ->
  inHistory j st ->
  recorded i st = Some text ->
  completion (visit j i) st = Normal tt /\
  editorText (exec (visit j i) st) = Some text /\
  commandHistoryIndex (exec (visit j i) st) = i /\
  history (exec (visit j i) st) = history st.
Proof.
  intros He Hi Hj Hr.
  destruct (loadCommand_keeps_recorded i j text st ed He Hj Hr)
    as (Hc & (ed' & He') & Hh & Hr').
  assert (Hi' : inHistory i (exec (loadCommand j) st)).
  { unfold inHistory in *. rewrite Hh. exact Hi. }
  destruct (loadCommand_recorded i text _ ed' He' Hi' Hr') as (Hc2 & Ht & Hx & Hh2).
  assert (Hall : visit j i st = loadCommand i (exec (loadCommand j) st)).
  { unfold visit, bind. rewrite Hc. reflexivity. }
  unfold completion, exec in *. rewrite Hall, Hc2. simpl.
  rewrite Hh2, Hh. repeat split; assumption.
Qed.

(** Text typed at an index (an offset of the history or the fresh
    command) is shown again when the user goes to any other place of the
    history and comes back: neither [loadCommand] forgets an edit. *)
Theorem edit_survives_navigation (st : State) (ed : Editor)
    (text : string) (cursor : Position) (j : option Z) :
  commandEditor st = Some ed ->
  inHistory (commandHistoryIndex st) st ->
  inHistory j st ->
  completion (userEdit text cursor;; visit j (commandHistoryIndex st)) st = Normal tt /\
  editorText (exec (userEdit text cursor;; visit j (commandHistoryIndex st)) st)
    = Some text /\
  commandHistoryIndex (exec (userEdit text cursor;; visit j (commandHistoryIndex st)) st)
    = commandHistoryIndex st /\
  history (exec (userEdit text cursor;; visit j (commandHistoryIndex st)) st)
    = history st.
Proof.
  intros He Hi Hj.
  set (i := commandHistoryIndex st) in *.
  assert (Hedit : exists st1 ed1,
            userEdit text cursor st = (Normal tt, st1) /\
            commandEditor st1 = Some ed1 /\
            history st1 = history st /\
            recorded i st1 = Some text).
  { unfold userEdit, onDidChangeModelContent. unfold_m. rewrite He. simpl.
    eexists _, _. split; [reflexivity|]. simpl.
    split; [reflexivity|]. split; [reflexivity|].
    unfold recorded. simpl. fold i. rewrite lookup_insert_eq. reflexivity. }
  destruct Hedit as (st1 & ed1 & Hrun1 & He1 & Hh1 & Hr1).
  assert (Hi1 : inHistory i st1) by (unfold inHistory in *; rewrite Hh1; exact Hi).
  assert (Hj1 : inHistory j st1) by (unfold inHistory in *; rewrite Hh1; exact Hj).
  destruct (visit_recorded i j text st1 ed1 He1 Hi1 Hj1 Hr1) as (Hc & Ht & Hx & Hh).
  assert (Hall : (userEdit text cursor;; visit j i) st = visit j i st1).
  { unfold bind at 1. rewrite Hrun1. reflexivity. }
  unfold completion, exec in *. rewrite Hall, Hh, Hh1. repeat split; assumption.
Qed.

(** A new edit at offset 1 comes back after a visit to offset 2. *)
Lemma edit_survives_navigation_witness :
  editorText
    (exec (userEdit "b + 2" {| lineNumber := 1; column := 6 |};;
           visit (Some 2) (Some 1)) browsing)
  = Some "b + 2".
Proof.
  assert (He : exists ed, commandEditor browsing = Some ed) by (eexists; reflexivity).
  destruct He as [ed He].
  apply (edit_survives_navigation browsing ed "b + 2"
           {| lineNumber := 1; column := 6 |} (Some 2) He).
  - vm_compute. split; congruence.
  - vm_compute. split; congruence.
Defined.

(** *** Submitting, and recalling what was submitted *)

Lemma processCommand_last (command : string) (st : State) :
  command <> "" -> last (history (exec (processCommand command) st)) = Some command.
Proof.
  intros Hc. rewrite processCommand_history.
  destruct (bool_decide_reflect (command <> "" /\ last (history st) <> Some command))
    as [H|H].
  - apply last_snoc.
  - destruct (decide (last (history st) = Some command)) as [Hl|Hl]; [exact Hl|].
    exfalso. apply H. split; assumption.
Qed.

(** A command that was submitted, and is not empty, is the newest entry
    of the history, whether it was appended or already there; the first
    step back into the history ([loadCommand(0)], what ArrowUp asks for
    from the fresh command) shows it, unedited. *)
Theorem submitted_command_is_recalled (st : State) (ed : Editor) (command : string) :
  commandEditor st = Some ed ->
  command <> "" ->
  last (history (exec (processCommand command) st)) = Some command /\
  completion (processCommand command;; loadCommand (Some 0)) st = Normal tt /\
  editorText (exec (processCommand command;; loadCommand (Some 0)) st) = Some command /\
  commandHistoryIndex (exec (processCommand command;; loadCommand (Some 0)) st) = Some 0.
Proof.
  intros He Hc.
  pose proof (processCommand_last command st Hc) as Hlast.
  split; [exact Hlast|].
  set (st1 := exec (processCommand command) st) in *.
  assert (Hrun : processCommand command st = (Normal tt, st1)).
  { unfold st1, exec. rewrite processCommand_state. reflexivity. }
  assert (He1 : commandEditor st1 = Some ed).
  { unfold st1, exec. rewrite processCommand_state. exact He. }
  assert (Hm1 : modifiedCommands st1 = ∅).
  { unfold st1, exec. rewrite processCommand_state. reflexivity. }
  assert (Hne : history st1 <> []).
  { intros Hnil. rewrite Hnil in Hlast. discriminate. }
  assert (Hin : inHistory (Some 0) st1).
  { simpl. destruct (history st1); [congruence | simpl; lia]. }
  destruct (loadCommand_mounted (Some 0) st1 ed He1 Hin)
    as (h & Hh & Hrun2 & He2 & Hx2 & _ & _).
  assert (Hhc : h = command).
  { simpl in Hh. replace (Z.of_nat (length (history st1)) - 0 - 1)
      with (Z.of_nat (length (history st1)) - 1) in Hh by lia.
    rewrite index_last in Hh by exact Hne. congruence. }
  assert (Hshown : shown (Some 0) h st1 = command).
  { unfold shown. rewrite Hm1, lookup_empty. exact Hhc. }
  assert (Hall : (processCommand command;; loadCommand (Some 0)) st
                 = loadCommand (Some 0) st1).
  { unfold bind at 1. rewrite Hrun. reflexivity. }
  unfold editorText, completion, exec in *. rewrite Hall, Hrun2. simpl.
  rewrite He2, Hx2, Hshown. repeat split; reflexivity.
Qed.

Lemma submitted_command_is_recalled_witness :
  editorText (exec (processCommand "d";; loadCommand (Some 0)) browsing) = Some "d".
Proof.
  assert (He : exists ed, commandEditor browsing = Some ed) by (eexists; reflexivity).
  destruct He as [ed He].
  apply (submitted_command_is_recalled browsing ed "d" He). discriminate.
Defined.

(** *** [clear] *)

(** [clear] empties the editor and goes back to the fresh command. It
    writes the empty text before it resets the index, so the content
    listener records the empty text for the history entry that was shown:
    going back to that entry shows an empty editor, not the entry. *)
Theorem clear_blanks_the_entry_shown (st : State) (ed : Editor) (i : Z) :
  commandEditor st = Some ed ->
  commandHistoryIndex st = Some i ->
  0 <= i < Z.of_nat (length (history st)) ->
  completion clear st = Normal tt /\
  editorText (exec clear st) = Some "" /\
  commandHistoryIndex (exec clear st) = None /\
  history (exec clear st) = history st /\
  editorText (exec (clear;; loadCommand (Some i)) st) = Some "" /\
  commandHistoryIndex (exec (clear;; loadCommand (Some i)) st) = Some i.
Proof.
  intros He Hx Hi.
  assert (Hclear : exists st1 ed1,
            clear st = (Normal tt, st1) /\
            commandEditor st1 = Some ed1 /\ value ed1 = "" /\
            commandHistoryIndex st1 = None /\
            history st1 = history st /\
            recorded (Some i) st1 = Some "").
  { unfold clear, focus, setValue, onDidChangeModelContent. unfold_m.
    rewrite He. simpl. eexists _, _. split; [reflexivity|]. simpl.
    repeat split. unfold recorded. simpl. rewrite Hx, lookup_insert_eq. reflexivity. }
  destruct Hclear as (st1 & ed1 & Hrun & He1 & Hv & Hx1 & Hh1 & Hr1).
  assert (Hi1 : inHistory (Some i) st1) by (simpl; rewrite Hh1; exact Hi).
  destruct (loadCommand_recorded (Some i) "" st1 ed1 He1 Hi1 Hr1) as (Hc2 & Ht & Hx2 & _).
  assert (Hall : (clear;; loadCommand (Some i)) st = loadCommand (Some i) st1).
  { unfold bind at 1. rewrite Hrun. reflexivity. }
  unfold editorText, completion, exec in *. rewrite Hall, Hrun. simpl.
  rewrite He1. simpl. rewrite Hv. repeat split; assumption.
Qed.

(** At offset 1 of the sample, where ["b"] is edited to ["b + 1"]. *)
Lemma clear_blanks_the_entry_shown_witness :
  editorText (exec (clear;; loadCommand (Some 1)) browsing) = Some "".
Proof.
  assert (He : exists ed, commandEditor browsing = Some ed) by (eexists; reflexivity).
  destruct He as [ed He].
  apply (clear_blanks_the_entry_shown browsing ed 1 He).
  - reflexivity.
  - vm_compute. split; congruence.
Defined.

(** *** What the key handler does with a key *)

(** Looking at the suggestion menu a second time finds the same. *)
Lemma isSuggestionMenuPopulated_again (st : State) (b : bool) (s : State) :
  isSuggestionMenuPopulated st = (Normal b, s) ->
  isSuggestionMenuPopulated s = (Normal b, s).
Proof.
  unfold isSuggestionMenuPopulated, isSuggestionMenuActive. unfold_m.
  destruct st as [pr ed idx [w|] lp ts bi h m ps es]; simpl.
  - destruct (visible w) eqn:V; simpl; intros [= <- <-]; simpl; rewrite V; reflexivity.
  - destruct (ed ≫= suggestNode) as [w|] eqn:E; simpl.
    + destruct (visible w) eqn:V; simpl; intros [= <- <-]; simpl; rewrite V; reflexivity.
    + intros [= <- <-]. simpl. rewrite E. reflexivity.
Qed.

Lemma isSuggestionMenuPopulated_sameButMenu (st : State) :
  sameButMenu st (exec isSuggestionMenuPopulated st).
Proof.
  destruct (isSuggestionMenuPopulated_frame st) as [b Hb].
  unfold exec. rewrite Hb. simpl. repeat split.
Qed.

Lemma onKeyDown_unfold (st : State) (ed : Editor) (pos : Position) (ev : KeyEvent)
    (b : bool) (s : State) :
  commandEditor st = Some ed ->
  position ed = Some pos ->
  isSuggestionMenuPopulated st = (Normal b, s) ->
  onKeyDown ev st =
    if negb (altKey ev) && negb (shiftKey ev) && negb (metaKey ev) then
      if String.eqb (code ev) "ArrowUp" && (negb b && (lineNumber pos =? 1)) then
        (loadCommand (arrowUpTarget (commandHistoryIndex st));;
         focusStart;; emit StopPropagation;; emit PreventDefault) s
      else if String.eqb (code ev) "ArrowDown" &&
              (negb b && (lineNumber pos =? getLineCount (value ed))) then
        (loadCommand (arrowDownTarget (commandHistoryIndex st));;
         focusEnd;; emit StopPropagation;; emit PreventDefault) s
      else if keyCode ev =? KeyCode_Enter then
        if negb b then
          (emit StopPropagation;; emit PreventDefault;;
           processCommand (trim (value ed));; setValue (Some "")) s
        else (Normal tt, s)
      else
        (Normal tt,
         if String.eqb (code ev) "ArrowUp" || String.eqb (code ev) "ArrowDown"
         then s else st)
    else (Normal tt, st).
Proof.
  intros He Hp Hb.
  pose proof (isSuggestionMenuPopulated_again st b s Hb) as Hb2.
  assert (Hes : commandEditor s = Some ed).
  { destruct (isSuggestionMenuPopulated_frame st) as [b' Hb'].
    rewrite Hb' in Hb. injection Hb as _ <-. exact He. }
  assert (Henter : forall x,
    x = s \/ (x = st /\ String.eqb (code ev) "ArrowUp" = false
                     /\ String.eqb (code ev) "ArrowDown" = false) ->
    (let* enter :=
       (if keyCode ev =? KeyCode_Enter then
          let* populated := isSuggestionMenuPopulated in
          ret (negb populated)
        else ret false) in
     if enter then
       emit StopPropagation;;
       emit PreventDefault;;
       let* st2 := get in
       match commandEditor st2 with
       | Some ed =>
           processCommand (trim (value ed));;
           setValue (Some "")
       | None => ret tt
       end
     else ret tt) x =
    if keyCode ev =? KeyCode_Enter then
      if negb b then
        (emit StopPropagation;; emit PreventDefault;;
         processCommand (trim (value ed));; setValue (Some "")) s
      else (Normal tt, s)
    else (Normal tt, x)).
  { intros x Hx. unfold bind at 1.
    destruct (keyCode ev =? KeyCode_Enter).
    - unfold bind at 1.
      assert (Hbx : isSuggestionMenuPopulated x = (Normal b, s)).
      { destruct Hx as [->|[-> _]]; assumption. }
      rewrite Hbx. unfold ret at 1.
      destruct b; [reflexivity|]. cbn [negb].
      unfold bind at 1. unfold emit at 1, modify at 1.
      unfold bind at 1. unfold emit at 1, modify at 1.
      unfold bind at 1. unfold get at 1. cbn [commandEditor set_effects].
      rewrite Hes.
      reflexivity.
    - reflexivity. }
  unfold onKeyDown.
  unfold bind at 1. unfold get at 1. rewrite He. simpl mbind. rewrite Hp.
  unfold assertNotNull. unfold bind at 1. unfold ret at 1.
  destruct (negb (altKey ev) && negb (shiftKey ev) && negb (metaKey ev));
    [|reflexivity].
  unfold bind at 1.
  destruct (String.eqb (code ev) "ArrowUp") eqn:Hup.
  - assert (Hdown : String.eqb (code ev) "ArrowDown" = false).
    { apply String.eqb_eq in Hup. rewrite Hup. reflexivity. }
    unfold bind at 1. rewrite Hb. unfold ret at 1.
    cbn [andb orb].
    destruct (negb b && (lineNumber pos =? 1)).
    + destruct (commandHistoryIndex st); reflexivity.
    + unfold bind at 1. rewrite Hdown. unfold ret at 1. cbn [andb orb].
      rewrite Henter by (left; reflexivity).
      destruct (keyCode ev =? KeyCode_Enter); reflexivity.
  - unfold ret at 1. cbn [andb orb]. unfold bind at 1.
    destruct (String.eqb (code ev) "ArrowDown") eqn:Hdown.
    + unfold bind at 1. rewrite Hb.
      unfold bind at 1. unfold get at 1. unfold ret at 1. rewrite Hes.
      cbn [andb orb].
      destruct (negb b && (lineNumber pos =? getLineCount (value ed))).
      * destruct (commandHistoryIndex st) as [i|]; [|reflexivity].
        simpl. destruct (0 <? i); reflexivity.
      * rewrite Henter by (left; reflexivity).
        destruct (keyCode ev =? KeyCode_Enter); reflexivity.
    + unfold ret at 1. cbn [andb orb].
      rewrite Henter by (right; repeat split; assumption).
      reflexivity.
Qed.

(** The handler on a mounted component, by [keyAction]. *)
Lemma onKeyDown_cases (st : State) (ed : Editor) (pos : Position) (ev : KeyEvent) :
  commandEditor st = Some ed ->
  position ed = Some pos ->
  exists b,
    completion isSuggestionMenuPopulated st = Normal b /\
    match keyAction ev (lineNumber pos) (getLineCount (value ed)) b with
    | GoUp =>
        onKeyDown ev st =
          (loadCommand (arrowUpTarget (commandHistoryIndex st));;
           focusStart;; emit StopPropagation;; emit PreventDefault)
            (exec isSuggestionMenuPopulated st)
    | GoDown =>
        onKeyDown ev st =
          (loadCommand (arrowDownTarget (commandHistoryIndex st));;
           focusEnd;; emit StopPropagation;; emit PreventDefault)
            (exec isSuggestionMenuPopulated st)
    | Submit =>
        onKeyDown ev st =
          (emit StopPropagation;; emit PreventDefault;;
           processCommand (trim (value ed));; setValue (Some ""))
            (exec isSuggestionMenuPopulated st)
    | LeaveToWidget =>
        completion (onKeyDown ev) st = Normal tt /\
        sameButMenu st (exec (onKeyDown ev) st)
    end.
Proof.
  intros He Hp.
  pose proof (isSuggestionMenuPopulated_sameButMenu st) as Hsame.
  assert (Hst : sameButMenu st st) by (repeat split).
  destruct (isSuggestionMenuPopulated st) as [[b|err] s] eqn:Hb.
  2:{ destruct (isSuggestionMenuPopulated_frame st) as [b' Hb']. congruence. }
  exists b. unfold completion, exec in *. rewrite Hb in *. cbn [fst snd] in *.
  split; [reflexivity|].
  rewrite (onKeyDown_unfold st ed pos ev b s He Hp Hb).
  unfold keyAction.
  destruct (altKey ev), (shiftKey ev), (metaKey ev); cbn [negb andb orb fst snd];
    try (split; [reflexivity | exact Hst]).
  destruct (String.eqb (code ev) "ArrowUp"), (String.eqb (code ev) "ArrowDown"),
    b, (lineNumber pos =? 1), (lineNumber pos =? getLineCount (value ed)),
    (keyCode ev =? KeyCode_Enter);
    cbn [negb andb orb fst snd];
    first [ reflexivity
          | split; [reflexivity | exact Hst]
          | split; [reflexivity | exact Hsame] ].
Qed.

(** Keys the handler has no use for are left to the widget: with Alt,
    Shift or Meta held, with a populated suggestion menu, or when the key
    is neither Enter nor an arrow at the edge it points to (ArrowUp off
    the first line, ArrowDown off the last), the handler returns without
    stopping the event and without touching the history, the index, the
    recorded edits or the text. *)
Theorem key_left_to_the_widget (st : State) (ed : Editor) (pos : Position) (ev : KeyEvent) :
  commandEditor st = Some ed ->
  position ed = Some pos ->
  (altKey ev = true \/ shiftKey ev = true \/ metaKey ev = true) \/
  completion isSuggestionMenuPopulated st = Normal true \/
  (~ (code ev = "ArrowUp" /\ lineNumber pos = 1) /\
   ~ (code ev = "ArrowDown" /\ lineNumber pos = getLineCount (value ed)) /\
   keyCode ev <> KeyCode_Enter) ->
  completion (onKeyDown ev) st = Normal tt /\
  sameButMenu st (exec (onKeyDown ev) st).
Proof.
  intros He Hp Hwhy.
  destruct (onKeyDown_cases st ed pos ev He Hp) as (b & Hb & Hcase).
  assert (Hact : keyAction ev (lineNumber pos) (getLineCount (value ed)) b = LeaveToWidget).
  { unfold keyAction. destruct Hwhy as [Hmod | [Hmenu | (Hup & Hdown & Henter)]].
    - destruct Hmod as [-> | [-> | ->]];
        destruct (altKey ev), (shiftKey ev); reflexivity.
    - rewrite Hmenu in Hb. injection Hb as <-.
      destruct (altKey ev || shiftKey ev || metaKey ev); [reflexivity|].
      rewrite !andb_false_r. reflexivity.
    - destruct (altKey ev || shiftKey ev || metaKey ev); [reflexivity|].
      destruct (String.eqb_spec (code ev) "ArrowUp") as [Hu|_],
               (Z.eqb_spec (lineNumber pos) 1) as [Hl|_];
        try (exfalso; apply Hup; split; assumption);
        destruct (String.eqb_spec (code ev) "ArrowDown") as [Hd|_],
                 (Z.eqb_spec (lineNumber pos) (getLineCount (value ed))) as [Hl'|_];
        try (exfalso; apply Hdown; split; assumption);
        destruct (Z.eqb_spec (keyCode ev) KeyCode_Enter) as [Hk|_];
        try (exfalso; apply Henter; assumption);
        destruct b; reflexivity. }
  rewrite Hact in Hcase. exact Hcase.
Qed.

(** Shift+Enter while browsing: the handler leaves the key alone. *)
Lemma key_left_to_the_widget_witness :
  effects (exec (onKeyDown {| code := "Enter"; keyCode := KeyCode_Enter; altKey := false;
                              shiftKey := true; metaKey := false; ctrlKey := false |})
             browsing)
  = effects browsing.
Proof.
  assert (He : exists ed, commandEditor browsing = Some ed /\
                          position ed = Some {| lineNumber := 1; column := 6 |}).
  { eexists. split; reflexivity. }
  destruct He as (ed & He & Hp).
  apply (key_left_to_the_widget browsing ed _
           {| code := "Enter"; keyCode := KeyCode_Enter; altKey := false;
              shiftKey := true; metaKey := false; ctrlKey := false |} He Hp).
  left. right. left. reflexivity.
Defined.

Lemma trim_blank (s : string) : blank s = true -> trim s = "".
Proof.
  unfold trim. induction s as [|c s IH]; simpl; [reflexivity|].
  intros H. apply andb_prop in H as [Hc Hs]. rewrite Hc. apply IH. exact Hs.
Qed.



(** *** The key handler does not fail while the editor is there *)

Ltac cursor_frame :=
  let st := fresh "st" in
  let H := fresh "H" in
  intros st H; unfold hasCursor in *; simpl in *;
  try (destruct (commandEditor st); simpl in * );
  first [ exact H | exact I | discriminate ].

Ltac cursor_auto := repeat preserves_step cursor_frame.

Lemma cursor_emit (e : Effect) : preserves hasCursor (emit e).
Proof. unfold emit. cursor_auto. Qed.

Lemma cursor_setValue v : preserves hasCursor (setValue v).
Proof.
  intros st H. unfold hasCursor in *.
  destruct (commandEditor st) as [ed|] eqn:He.
  - destruct v as [s|].
    + rewrite (setValue_editor st ed s He). simpl.
      destruct (position ed); [discriminate | congruence].
    + unfold setValue. unfold_m. rewrite He. simpl. rewrite He. exact H.
  - rewrite setValue_no_editor by exact He. simpl. rewrite He. exact I.
Qed.

Lemma cursor_focusStart : preserves hasCursor focusStart.
Proof.
  intros st H. unfold hasCursor, focusStart in *. unfold_m.
  destruct (commandEditor st) as [ed|] eqn:He; simpl; [discriminate|].
  rewrite He. exact I.
Qed.

Lemma cursor_focusEnd : preserves hasCursor focusEnd.
Proof.
  intros st H. unfold hasCursor, focusEnd in *. unfold_m.
  destruct (commandEditor st) as [ed|] eqn:He; simpl; [discriminate|].
  rewrite He. exact I.
Qed.

Lemma cursor_userEdit text cursor : preserves hasCursor (userEdit text cursor).
Proof.
  intros st H. unfold hasCursor, userEdit, onDidChangeModelContent in *. unfold_m.
  destruct (commandEditor st) as [ed|] eqn:He; simpl; [discriminate|].
  rewrite He. exact I.
Qed.

Lemma cursor_loadMoreHistory : preserves hasCursor loadMoreHistory.
Proof.
  intros st H. rewrite loadMoreHistory_cases.
  destruct (negb (isNull (loadingPromise st)) || isNull (bufferIndex st)); exact H.
Qed.

Lemma cursor_processCommand command : preserves hasCursor (processCommand command).
Proof. intros st H. rewrite processCommand_state. exact H. Qed.

Lemma cursor_resume r o : preserves hasCursor (loadMoreHistory_resume r o).
Proof.
  unfold loadMoreHistory_resume, loadMoreHistory_table, loadMoreHistory_viewport,
    loadMoreHistory_catch, makeCancelable, emit.
  cursor_auto.
Qed.

#[local] Hint Resolve cursor_emit cursor_setValue cursor_focusStart cursor_focusEnd
  cursor_userEdit cursor_loadMoreHistory cursor_processCommand cursor_resume : preserves.

Lemma cursor_dispatch (ev : Event) : preserves hasCursor (dispatch ev).
Proof.
  destruct ev; simpl.
  - unfold componentDidMount, initCommandEditor. cursor_auto.
  - unfold componentWillUnmount, destroyCommandEditor, deliverCancellation, cancel.
    cursor_auto.
  - unfold onKeyDown, isSuggestionMenuPopulated, isSuggestionMenuActive, loadCommand.
    cursor_auto.
  - apply cursor_userEdit.
  - unfold cursorMove. cursor_auto.
  - unfold suggestMenu. cursor_auto.
  - unfold setConsoleText. cursor_auto.
  - unfold clear, focus. cursor_auto.
  - unfold settle, cleanup. cursor_auto.
Qed.

(** [loadCommand] returns on a mounted component for every index that is
    not negative, and leaves an editor. *)
Lemma loadCommand_total (index : option Z) (st : State) (ed : Editor) :
  commandEditor st = Some ed ->
  match index with Some i => 0 <= i | None => True end ->
  exists st' ed',
    loadCommand index st = (Normal tt, st') /\ commandEditor st' = Some ed'.
Proof.
  intros He Hi.
  assert (Hcases : inHistory index st \/
                   exists i, index = Some i /\ Z.of_nat (length (history st)) <= i).
  { destruct index as [i|]; simpl; [|left; exact I].
    destruct (Z.lt_ge_cases i (Z.of_nat (length (history st)))); [left; lia|].
    right. exists i. split; [reflexivity | assumption]. }
  destruct Hcases as [Hin | (i & -> & Hbeyond)].
  - destruct (loadCommand_mounted index st ed He Hin) as (h & _ & Hrun & He' & _).
    eauto.
  - rewrite loadCommand_beyond by exact Hbeyond. eauto.
Qed.

Lemma onKeyDown_completes (st : State) (ed : Editor) (pos : Position) (ev : KeyEvent) :
  commandEditor st = Some ed ->
  position ed = Some pos ->
  indexInRange st ->
  completion (onKeyDown ev) st = Normal tt.
Proof.
  intros He Hp Hidx.
  destruct (onKeyDown_cases st ed pos ev He Hp) as (b & Hb & Hcase).
  destruct (isSuggestionMenuPopulated_sameButMenu st)
    as (_ & Hes & Hxs & _).
  set (s := exec isSuggestionMenuPopulated st) in *.
  rewrite He in Hes.
  destruct (keyAction ev (lineNumber pos) (getLineCount (value ed)) b).
  - (* up *)
    assert (Ht : match arrowUpTarget (commandHistoryIndex st) with
                 | Some i => 0 <= i | None => True end).
    { unfold indexInRange in Hidx. destruct (commandHistoryIndex st); simpl; lia. }
    destruct (loadCommand_total _ s ed Hes Ht) as (s' & ed' & Hrun & He').
    unfold completion. rewrite Hcase. unfold bind at 1. rewrite Hrun.
    unfold focusStart. unfold_m. rewrite He'. reflexivity.
  - (* down *)
    assert (Ht : match arrowDownTarget (commandHistoryIndex st) with
                 | Some i => 0 <= i | None => True end).
    { unfold indexInRange in Hidx. destruct (commandHistoryIndex st) as [i|]; simpl; [|exact I].
      destruct (Z.ltb_spec 0 i); [lia | exact I]. }
    destruct (loadCommand_total _ s ed Hes Ht) as (s' & ed' & Hrun & He').
    unfold completion. rewrite Hcase. unfold bind at 1. rewrite Hrun.
    unfold focusEnd. unfold_m. rewrite He'. reflexivity.
  - (* Enter *)
    unfold completion. rewrite Hcase.
    unfold bind, emit, modify. cbv beta iota.
    rewrite processCommand_state.
    erewrite setValue_editor by (simpl; exact Hes). reflexivity.
  - exact (proj1 Hcase).
Qed.

(** In every state the component reaches from its constructor, the key
    handler returns for every key as long as the editor exists, whatever
    the index, the text and the fetches under way; once the editor is
    gone it throws the assertion error and changes nothing. *)
Theorem key_handler_fails_only_unmounted (p : Props) (now : Z)
    (evs : list Event) (ev : KeyEvent) :
  (commandEditor (run evs (constructor p now)) <> None ->
   completion (onKeyDown ev) (run evs (constructor p now)) = Normal tt) /\
  (commandEditor (run evs (constructor p now)) = None ->
   onKeyDown ev (run evs (constructor p now))
   = (Throw AssertionError, run evs (constructor p now))).
Proof.
  assert (Hidx : indexInRange (run evs (constructor p now))).
  { apply (run_invariant indexInRange index_dispatch). exact I. }
  assert (Hcur : hasCursor (run evs (constructor p now))).
  { apply (run_invariant hasCursor cursor_dispatch). exact I. }
  revert Hidx Hcur. generalize (run evs (constructor p now)). intros st Hidx Hcur.
  split.
  - intros He. unfold hasCursor in Hcur.
    destruct (commandEditor st) as [ed|] eqn:Hed; [|congruence].
    destruct (position ed) as [pos|] eqn:Hp; [|congruence].
    exact (onKeyDown_completes st ed pos ev Hed Hp Hidx).
  - intros He. unfold onKeyDown. unfold_m. rewrite He. reflexivity.
Qed.

(** Mounted, a key is handled; unmounted again, the handler throws. *)
Lemma key_handler_fails_only_unmounted_witness :
  completion (onKeyDown arrowUp) (run [Mount] (constructor sampleProps 0)) = Normal tt /\
  onKeyDown arrowUp (run [Mount; Unmount] (constructor sampleProps 0))
  = (Throw AssertionError, run [Mount; Unmount] (constructor sampleProps 0)).
Proof.
  split.
  - apply (proj1 (key_handler_fails_only_unmounted sampleProps 0 [Mount] arrowUp)).
    vm_compute. discriminate.
  - apply (proj2 (key_handler_fails_only_unmounted sampleProps 0 [Mount; Unmount] arrowUp)).
    reflexivity.
Defined.

(** *** The history only grows *)

Ltac kept_frame := intros ? H; exact H.

Ltac kept_auto := repeat preserves_step kept_frame.

Lemma kept_processCommand h0 command : preserves (keepsHistory h0) (processCommand command).
Proof.
  intros st (older & newer & H). rewrite processCommand_state.
  unfold keepsHistory. simpl.
  destruct (negb (String.eqb command "") && _).
  - exists older, (newer ++ [command])%list. rewrite H, <- !app_assoc. reflexivity.
  - exists older, newer. exact H.
Qed.

Lemma kept_resume h0 r o : preserves (keepsHistory h0) (loadMoreHistory_resume r o).
Proof.
  intros st (older & newer & H). unfold loadMoreHistory_resume, try_catch.
  assert (Hsame : keepsHistory h0 st) by (exists older, newer; exact H).
  destruct r as [|table], o as [t|items|err]; simpl;
    rewrite ?loadMoreHistory_catch_state; try exact Hsame.
  rewrite loadMoreHistory_viewport_state. unfold keepsHistory. simpl.
  exists (rev (map name (filter3 differsFromPrevious items)) ++ older)%list, newer.
  rewrite H, <- app_assoc. reflexivity.
Qed.

Lemma kept_emit h0 (e : Effect) : preserves (keepsHistory h0) (emit e).
Proof. unfold emit. kept_auto. Qed.

Lemma kept_setValue h0 v : preserves (keepsHistory h0) (setValue v).
Proof. unfold setValue, onDidChangeModelContent. kept_auto. Qed.

Lemma kept_loadMoreHistory h0 : preserves (keepsHistory h0) loadMoreHistory.
Proof.
  intros st H. rewrite loadMoreHistory_cases.
  destruct (negb (isNull (loadingPromise st)) || isNull (bufferIndex st)); exact H.
Qed.

Lemma kept_focusStart h0 : preserves (keepsHistory h0) focusStart.
Proof. unfold focusStart. kept_auto. Qed.

Lemma kept_focusEnd h0 : preserves (keepsHistory h0) focusEnd.
Proof. unfold focusEnd. kept_auto. Qed.

Lemma kept_menu h0 : preserves (keepsHistory h0) isSuggestionMenuPopulated.
Proof. unfold isSuggestionMenuPopulated, isSuggestionMenuActive. kept_auto. Qed.

#[local] Hint Resolve kept_processCommand kept_resume kept_emit kept_setValue
  kept_loadMoreHistory kept_focusStart kept_focusEnd kept_menu : preserves.

Lemma kept_loadCommand h0 index : preserves (keepsHistory h0) (loadCommand index).
Proof. unfold loadCommand. kept_auto. Qed.

#[local] Hint Resolve kept_loadCommand : preserves.

Lemma kept_dispatch h0 (ev : Event) : preserves (keepsHistory h0) (dispatch ev).
Proof.
  destruct ev; simpl.
  - unfold componentDidMount, initCommandEditor. kept_auto.
  - unfold componentWillUnmount, destroyCommandEditor, deliverCancellation, cancel.
    kept_auto.
  - unfold onKeyDown. kept_auto.
  - unfold userEdit, onDidChangeModelContent. kept_auto.
  - unfold cursorMove. kept_auto.
  - unfold suggestMenu. kept_auto.
  - unfold setConsoleText. kept_auto.
  - unfold clear, focus. kept_auto.
  - unfold settle, cleanup. kept_auto.
Qed.

(** Nothing is ever taken out of the history or moved inside it: after
    any events, from any state, the history is what it was, with older
    entries (pages that arrived) in front of it and newer entries
    (commands that were submitted) behind it. *)
Theorem history_only_grows (st : State) (evs : list Event) :
  exists older newer,
    history (run evs st) = (older ++ history st ++ newer)%list.
Proof.
  apply (run_invariant (keepsHistory (history st)) (kept_dispatch (history st))).
  exists [], []. rewrite app_nil_r. reflexivity.
Qed.

(** *** A page that arrives *)

Lemma screen_emit st0 (e : Effect) : preserves (sameScreen st0) (emit e).
Proof. unfold emit. kept_auto. Qed.

Lemma screen_resume st0 r o : preserves (sameScreen st0) (loadMoreHistory_resume r o).
Proof.
  intros st H. unfold loadMoreHistory_resume, try_catch.
  destruct r as [|table], o as [t|items|err]; simpl;
    rewrite ?loadMoreHistory_catch_state; try exact H.
  rewrite loadMoreHistory_viewport_state.
  destruct H as (He & Hx & Hm & older & Hh).
  split; [exact He|]. split; [exact Hx|]. split; [exact Hm|]. simpl.
  exists (rev (map name (filter3 differsFromPrevious items)) ++ older)%list.
  rewrite Hh, <- app_assoc. reflexivity.
Qed.

#[local] Hint Resolve screen_emit screen_resume : preserves.

Lemma screen_settle st0 p o : preserves (sameScreen st0) (settle p o).
Proof. unfold settle, cleanup. kept_auto. Qed.

Lemma historyValue_older (older : list string) (i : Z) (st st' : State) :
  0 <= i < Z.of_nat (length (history st)) ->
  history st' = (older ++ history st)%list ->
  historyValue (Some i) st' = historyValue (Some i) st.
Proof.
  intros Hi Hh. unfold historyValue, Js.index. rewrite Hh, length_app.
  destruct (Z.ltb_spec (Z.of_nat (length older + length (history st)) - i - 1) 0);
    [lia|].
  destruct (Z.ltb_spec (Z.of_nat (length (history st)) - i - 1) 0); [lia|].
  rewrite lookup_app_r by lia. f_equal. lia.
Qed.

(** When a request ends, whatever it brings, what is on screen stays:
    the text, the index and the recorded edits are untouched, and because
    a page goes in front of the history and offsets count from its end,
    every offset of the history still names the same command. *)
Theorem page_arrival_keeps_offsets (st : State) (p : PromiseRef) (o : Outcome) (i : Z) :
  0 <= i < Z.of_nat (length (history st)) ->
  historyValue (Some i) (exec (settle p o) st) = historyValue (Some i) st /\
  commandHistoryIndex (exec (settle p o) st) = commandHistoryIndex st /\
  commandEditor (exec (settle p o) st) = commandEditor st /\
  modifiedCommands (exec (settle p o) st) = modifiedCommands st.
Proof.
  intros Hi.
  assert (H0 : sameScreen st st).
  { repeat split. exists []. reflexivity. }
  destruct (screen_settle st p o st H0) as (He & Hx & Hm & older & Hh).
  split; [|repeat split; assumption].
  exact (historyValue_older older i st _ Hi Hh).
Qed.

(** The page arrives after the user has run ["z"]: offset 0 is still
    ["z"], with the page in front of it. *)
Lemma page_arrival_keeps_offsets_witness :
  history (exec (settle 1%nat (ResolvedViewport samplePage)) typedAhead)
    = ["a"; "b"; "c"; "z"] /\
  historyValue (Some 0) (exec (settle 1%nat (ResolvedViewport samplePage)) typedAhead)
    = historyValue (Some 0) typedAhead.
Proof.
  split; [reflexivity|].
  apply (page_arrival_keeps_offsets typedAhead 1%nat (ResolvedViewport samplePage) 0).
  vm_compute. split; congruence.
Defined.

(** *** Pages *)

Lemma paging_emit (e : Effect) : viewportOk e -> preserves paging (emit e).
Proof.
  intros He st (Hb & Ha & Hv). split; [exact Hb|]. split; [exact Ha|].
  simpl. apply Forall_app. split; [exact Hv|]. constructor; [exact He | constructor].
Qed.

#[local] Hint Extern 0 (viewportOk _) => exact I : preserves.
#[local] Hint Resolve paging_emit : preserves.

Ltac paging_auto := repeat preserves_step kept_frame.

Lemma paging_loadMoreHistory : preserves paging loadMoreHistory.
Proof.
  intros st H. rewrite loadMoreHistory_cases.
  destruct (negb (isNull (loadingPromise st)) || isNull (bufferIndex st)) eqn:Hc;
    [exact H|].
  apply orb_false_elim in Hc as [_ Hbi].
  destruct H as (Hb & Ha & Hv).
  destruct (bufferIndex st) as [b|] eqn:Hbi'; [|discriminate].
  split; [simpl; rewrite Hbi'; discriminate|].
  split; [simpl; rewrite Hbi'; exact Ha|].
  simpl. apply Forall_app. split; [exact Hv|]. repeat constructor.
Qed.

Lemma paging_catch (err : Error) (st : State) :
  paging st -> paging (snd (loadMoreHistory_catch err st)).
Proof.
  intros (Hb & Ha & Hv). rewrite loadMoreHistory_catch_state.
  split; [reflexivity|]. split; [exact Ha|].
  simpl. apply Forall_app. split; [exact Hv|].
  constructor; [|constructor]. unfold catchLog. destruct (isCanceled err); exact I.
Qed.

(** The continuation after an [await] runs while a request is in
    flight. *)
Lemma paging_resume (r : Request) (o : Outcome) (st : State) :
  loadingPromise st <> None ->
  paging st -> paging (snd (loadMoreHistory_resume r o st)).
Proof.
  intros Hl H. unfold loadMoreHistory_resume, try_catch.
  destruct r as [|table], o as [t|items|err]; simpl;
    try (apply paging_catch; exact H); try exact H.
  - (* the table arrives *)
    destruct H as (Hb & Ha & Hv).
    destruct (bufferIndex st) as [b|] eqn:Hbi; [|exfalso; apply Hl, Hb; reflexivity].
    destruct Ha as (k & Hk & ->).
    split; [simpl; rewrite ?Hbi; discriminate|].
    split; [simpl; rewrite ?Hbi; exists k; split; [exact Hk | reflexivity]|].
    simpl. rewrite !Forall_app. repeat split; try exact Hv;
      constructor; try constructor; try exact I.
    simpl. rewrite ?Hbi. simpl.
    exists k. split; [exact Hk|]. split; reflexivity.
  - (* the page arrives *)
    rewrite loadMoreHistory_viewport_state.
    destruct H as (Hb & Ha & Hv).
    split; [reflexivity|]. split.
    + simpl. destruct (size table <=? toNumber (bufferIndex st) + BUFFER_SIZE); [exact I|].
      destruct (bufferIndex st) as [b|]; simpl.
      * destruct Ha as (k & Hk & ->). exists (k + 1). unfold BUFFER_SIZE. split; lia.
      * exists 1. unfold BUFFER_SIZE. split; lia.
    + simpl. apply Forall_app. split; [exact Hv|]. repeat constructor.
Qed.

Lemma paging_settle p o : preserves paging (settle p o).
Proof.
  intros st H. unfold settle. unfold bind at 1. unfold get at 1.
  destruct (promises st !! p) as [cp|] eqn:Hp; [|exact H].
  destruct (settled cp || negb (outcomeOf (wraps cp) o)); [exact H|].
  unfold bind at 1. unfold modify at 1.
  assert (H' : paging (set_promises (alter markSettled p (promises st)) st)) by exact H.
  destruct (hasCanceled cp).
  - unfold cleanup. destruct (wraps cp), o; try exact H';
      apply paging_emit; try exact I; exact H'.
  - case_bool_decide as Hl; [|exact H'].
    apply paging_resume; [|exact H']. simpl. congruence.
Qed.

Lemma paging_deliverCancellation : preserves paging deliverCancellation.
Proof.
  intros st H. unfold deliverCancellation. unfold bind at 1. unfold get at 1.
  destruct (loadingPromise st) as [p|] eqn:Hl; [|exact H].
  destruct (promises st !! p) as [cp|]; [|exact H].
  destruct (hasCanceled cp && negb (settled cp)); [|exact H].
  apply paging_resume; [congruence | exact H].
Qed.

Lemma paging_setValue v : preserves paging (setValue v).
Proof. unfold setValue, onDidChangeModelContent. paging_auto. Qed.

Lemma paging_processCommand command : preserves paging (processCommand command).
Proof. unfold processCommand. paging_auto. Qed.

Lemma paging_focusStart : preserves paging focusStart.
Proof. unfold focusStart. paging_auto. Qed.

Lemma paging_focusEnd : preserves paging focusEnd.
Proof. unfold focusEnd. paging_auto. Qed.

Lemma paging_menu : preserves paging isSuggestionMenuPopulated.
Proof. unfold isSuggestionMenuPopulated, isSuggestionMenuActive. paging_auto. Qed.

#[local] Hint Resolve paging_loadMoreHistory paging_settle paging_deliverCancellation
  paging_setValue paging_processCommand paging_focusStart paging_focusEnd
  paging_menu : preserves.

Lemma paging_loadCommand index : preserves paging (loadCommand index).
Proof. unfold loadCommand. paging_auto. Qed.

#[local] Hint Resolve paging_loadCommand : preserves.

Lemma paging_dispatch (ev : Event) : preserves paging (dispatch ev).
Proof.
  destruct ev; simpl.
  - unfold componentDidMount, initCommandEditor. paging_auto.
  - unfold componentWillUnmount, destroyCommandEditor, cancel. paging_auto.
  - unfold onKeyDown. paging_auto.
  - unfold userEdit, onDidChangeModelContent. paging_auto.
  - unfold cursorMove. paging_auto.
  - unfold suggestMenu. paging_auto.
  - unfold setConsoleText. paging_auto.
  - unfold clear, focus. paging_auto.
  - apply paging_settle.
Qed.

Lemma paging_constructor (p : Props) (now : Z) : paging (constructor p now).
Proof.
  split; [discriminate|]. split; [|constructor].
  simpl. exists 0. split; [lia | reflexivity].
Qed.

(** History is fetched in whole, aligned pages: in every state the
    component reaches from its constructor, [bufferIndex] is null or a
    multiple of the page size (100) that is not negative, and every
    viewport it has asked a table for starts at such a multiple and spans
    one page; in particular no viewport is ever asked for while
    [bufferIndex] is null. *)
Theorem pages_are_aligned (p : Props) (now : Z) (evs : list Event) :
  pagesAligned (run evs (constructor p now)).
Proof.
  apply (run_invariant paging paging_dispatch). apply paging_constructor.
Qed.

(** *** When nothing is left to fetch, and after unmounting *)

Lemma requests_emit (e : Effect) (st : State) :
  isRequest e = false ->
  requests (set_effects (effects st ++ [e]) st) = requests st.
Proof.
  intros He. unfold requests. simpl. rewrite List.filter_app. simpl. rewrite He.
  apply app_nil_r.
Qed.

Lemma noLive_alter (f : CancelablePromise -> CancelablePromise) (p : PromiseRef)
    (ps : list CancelablePromise) :
  (forall cp, live (f cp) -> live cp) ->
  (forall q cq, ps !! q = Some cq -> ~ live cq) ->
  forall q cq, alter f p ps !! q = Some cq -> ~ live cq.
Proof.
  intros Hf Hn q cq Hq Hlive.
  destruct (decide (p = q)) as [<-|Hne].
  - rewrite list_lookup_alter_eq in Hq.
    destruct (ps !! p) as [cp|] eqn:Hp; simpl in Hq; [|discriminate].
    injection Hq as <-. exact (Hn p cp Hp (Hf cp Hlive)).
  - rewrite list_lookup_alter_ne in Hq by exact Hne. exact (Hn q cq Hq Hlive).
Qed.

(** With no live wrapper, the end of a request changes nothing but the
    wrapper it settles, and at most closes a table. *)
Lemma settle_noLive (p : PromiseRef) (o : Outcome) (st : State) :
  noLive st ->
  completion (settle p o) st = Normal tt /\
  noLive (exec (settle p o) st) /\
  requests (exec (settle p o) st) = requests st /\
  commandEditor (exec (settle p o) st) = commandEditor st /\
  loadingPromise (exec (settle p o) st) = loadingPromise st /\
  history (exec (settle p o) st) = history st /\
  bufferIndex (exec (settle p o) st) = bufferIndex st.
Proof.
  intros Hn. unfold completion, exec.
  destruct (settle p o st) as [c st'] eqn:E. cbn [fst snd].
  unfold settle in E. unfold bind at 1 in E. unfold get at 1 in E.
  destruct (promises st !! p) as [cp|] eqn:Hp;
    [|injection E as <- <-; repeat split; exact Hn].
  destruct (settled cp) eqn:Hs; [injection E as <- <-; repeat split; exact Hn|].
  destruct (outcomeOf (wraps cp) o); [|injection E as <- <-; repeat split; exact Hn].
  simpl orb in E. cbv iota in E. unfold bind at 1 in E. unfold modify at 1 in E.
  assert (Hn' : noLive (set_promises (alter markSettled p (promises st)) st)).
  { unfold noLive. simpl. apply noLive_alter; [|exact Hn].
    intros cp' [Hl _]. discriminate. }
  destruct (hasCanceled cp) eqn:Hc.
  - unfold cleanup in E.
    destruct (wraps cp), o; simpl in E; injection E as <- <-;
      repeat split; try exact Hn';
      apply (requests_emit (TableClose _)
               (set_promises (alter markSettled p (promises st)) st)); reflexivity.
  - exfalso. apply (Hn p cp Hp). split; assumption.
Qed.

Lemma exhausted_emit fx (e : Effect) :
  isRequest e = false -> preserves (exhausted fx) (emit e).
Proof.
  intros He st (Hb & Hl & Hn & Hr). repeat split; try assumption.
  simpl. rewrite <- Hr. apply requests_emit. exact He.
Qed.

#[local] Hint Extern 0 (isRequest _ = false) => reflexivity : preserves.
#[local] Hint Resolve exhausted_emit : preserves.

Ltac exhausted_auto := repeat preserves_step kept_frame.

Lemma exhausted_loadMoreHistory fx : preserves (exhausted fx) loadMoreHistory.
Proof.
  intros st H. rewrite loadMoreHistory_cases.
  destruct H as (Hb & Hl & Hn & Hr). rewrite Hb, Hl. simpl.
  repeat split; assumption.
Qed.

Lemma exhausted_settle fx p o : preserves (exhausted fx) (settle p o).
Proof.
  intros st (Hb & Hl & Hn & Hr).
  destruct (settle_noLive p o st Hn) as (_ & Hn' & Hr' & _ & Hl' & _ & Hb').
  unfold exec in *. split; [congruence|]. split; [congruence|].
  split; [exact Hn' | congruence].
Qed.

Lemma exhausted_cancel fx p : preserves (exhausted fx) (cancel p).
Proof.
  intros st (Hb & Hl & Hn & Hr). unfold cancel. unfold_m. simpl.
  repeat split; try assumption.
  - unfold noLive. simpl. apply noLive_alter; [|exact Hn].
    intros cp [_ Hc]. discriminate.
  - rewrite <- Hr. apply (requests_emit (PromiseCancel p) st). reflexivity.
Qed.

Lemma exhausted_deliverCancellation fx : preserves (exhausted fx) deliverCancellation.
Proof.
  intros st H. unfold deliverCancellation. unfold_m.
  destruct H as (Hb & Hl & Hn & Hr). rewrite Hl. repeat split; assumption.
Qed.

Lemma exhausted_setValue fx v : preserves (exhausted fx) (setValue v).
Proof. unfold setValue, onDidChangeModelContent. exhausted_auto. Qed.

Lemma exhausted_processCommand fx command : preserves (exhausted fx) (processCommand command).
Proof. unfold processCommand. exhausted_auto. Qed.

Lemma exhausted_focusStart fx : preserves (exhausted fx) focusStart.
Proof. unfold focusStart. exhausted_auto. Qed.

Lemma exhausted_focusEnd fx : preserves (exhausted fx) focusEnd.
Proof. unfold focusEnd. exhausted_auto. Qed.

Lemma exhausted_menu fx : preserves (exhausted fx) isSuggestionMenuPopulated.
Proof. unfold isSuggestionMenuPopulated, isSuggestionMenuActive. exhausted_auto. Qed.

#[local] Hint Resolve exhausted_loadMoreHistory exhausted_settle exhausted_cancel
  exhausted_deliverCancellation exhausted_setValue exhausted_processCommand
  exhausted_focusStart exhausted_focusEnd exhausted_menu : preserves.

Lemma exhausted_loadCommand fx index : preserves (exhausted fx) (loadCommand index).
Proof. unfold loadCommand. exhausted_auto. Qed.

#[local] Hint Resolve exhausted_loadCommand : preserves.

Lemma exhausted_dispatch fx (ev : Event) : preserves (exhausted fx) (dispatch ev).
Proof.
  destruct ev; simpl.
  - unfold componentDidMount, initCommandEditor. exhausted_auto.
  - unfold componentWillUnmount, destroyCommandEditor. exhausted_auto.
  - unfold onKeyDown. exhausted_auto.
  - unfold userEdit, onDidChangeModelContent. exhausted_auto.
  - unfold cursorMove. exhausted_auto.
  - unfold suggestMenu. exhausted_auto.
  - unfold setConsoleText. exhausted_auto.
  - unfold clear, focus. exhausted_auto.
  - apply exhausted_settle.
Qed.

Lemma run_app (evs evs' : list Event) (st : State) :
  run (evs ++ evs') st = run evs' (run evs st).
Proof. unfold run. apply fold_left_app. Qed.

(** Once the whole history has been fetched ([bufferIndex] is null) it
    stays so: whatever happens afterwards, a new mount included, the
    storage and its tables are never asked again, and [bufferIndex] stays
    null. *)
Theorem exhausted_history_is_not_requested_again (p : Props) (now : Z)
    (evs later : list Event) :
  bufferIndex (run evs (constructor p now)) = None ->
  bufferIndex (run (evs ++ later) (constructor p now)) = None /\
  loadingPromise (run (evs ++ later) (constructor p now)) = None /\
  requests (run (evs ++ later) (constructor p now))
    = requests (run evs (constructor p now)).
Proof.
  intros Hb. rewrite run_app.
  assert (Hflight : singleFlight (run evs (constructor p now))).
  { apply (run_invariant singleFlight flight_dispatch).
    apply noLive_idle; [|reflexivity].
    intros q cq Hq. simpl in Hq. rewrite lookup_nil in Hq. discriminate. }
  assert (Hpaging : paging (run evs (constructor p now))).
  { apply (run_invariant paging paging_dispatch). apply paging_constructor. }
  revert Hb Hflight Hpaging. generalize (run evs (constructor p now)).
  intros st Hb Hflight (Hl & _). specialize (Hl Hb).
  assert (H0 : exhausted (requests st) st).
  { repeat split; try assumption. apply singleFlight_idle; assumption. }
  destruct (run_invariant (exhausted (requests st)) (exhausted_dispatch (requests st))
              later st H0) as (Hb' & Hl' & _ & Hr').
  repeat split; assumption.
Qed.

(** The sample history of three commands is fetched with one page; the
    user then goes up through it, which would ask for more. *)
Lemma exhausted_history_is_not_requested_again_witness :
  requests (run ([Mount; Settle 0%nat (ResolvedTable sampleTable);
                  Settle 1%nat (ResolvedViewport samplePage)]
                 ++ [KeyDown arrowUp; KeyDown arrowUp; Unmount; Mount])
              (constructor sampleProps 0))
  = requests (run [Mount; Settle 0%nat (ResolvedTable sampleTable);
                   Settle 1%nat (ResolvedViewport samplePage)]
                (constructor sampleProps 0)).
Proof.
  apply (exhausted_history_is_not_requested_again sampleProps 0
           [Mount; Settle 0%nat (ResolvedTable sampleTable);
            Settle 1%nat (ResolvedViewport samplePage)]
           [KeyDown arrowUp; KeyDown arrowUp; Unmount; Mount]).
  reflexivity.
Defined.

Lemma unmount_gone (st : State) :
  singleFlight st ->
  gone (history st) (bufferIndex st) (requests st) (exec (dispatch Unmount) st).
Proof.
  intros H. destruct (loadingPromise st) as [p|] eqn:Hl.
  - destruct (proj2 H p Hl) as (cp & Hp & Hs & Hc).
    rewrite (unmount_state st p cp Hl Hp Hs).
    split; [reflexivity|]. split; [reflexivity|]. split.
    + unfold noLive. simpl. intros q cq Hq Hlive.
      destruct (decide (p = q)) as [<-|Hne].
      * rewrite list_lookup_alter_eq, Hp in Hq. injection Hq as <-.
        destruct Hlive as [_ Hl']. discriminate.
      * rewrite list_lookup_alter_ne in Hq by exact Hne.
        pose proof (proj1 H q cq Hq Hlive). congruence.
    + split; [reflexivity|]. split; [reflexivity|].
      unfold requests. simpl. rewrite !List.filter_app.
      destruct (isNull (commandEditor st)); simpl; rewrite ?app_nil_r; reflexivity.
  - pose proof (singleFlight_idle st H Hl) as Hn.
    unfold exec. simpl. unfold componentWillUnmount, destroyCommandEditor,
      deliverCancellation.
    unfold_m.
    destruct (commandEditor st) as [ed|] eqn:He;
      repeat (progress (simpl; rewrite ?Hl, ?He));
      (split; [first [reflexivity | exact He]|]; split; [exact Hl|]; split; [exact Hn|];
       split; [reflexivity|]; split; [reflexivity|]);
      unfold requests; simpl; rewrite ?List.filter_app; simpl;
      rewrite ?app_nil_r; reflexivity.
Qed.

Lemma gone_dispatch h b fx (ev : Event) :
  fromOutside ev -> preserves (gone h b fx) (dispatch ev).
Proof.
  intros Hev st H. pose proof H as (He & Hl & Hn & Hh & Hb & Hr).
  destruct ev; simpl in Hev; try contradiction; simpl.
  - unfold onKeyDown. unfold_m. rewrite He. exact H.
  - unfold userEdit. unfold_m. rewrite He. exact H.
  - unfold cursorMove. unfold_m. simpl.
    split; [simpl; rewrite He; reflexivity|]. repeat split; assumption.
  - unfold suggestMenu. unfold_m. simpl.
    split; [simpl; rewrite He; reflexivity|]. repeat split; assumption.
  - destruct (settle_noLive p o st Hn) as (_ & Hn' & Hr' & He' & Hl' & Hh' & Hb').
    unfold exec in *.
    split; [congruence|]. split; [congruence|]. split; [exact Hn'|].
    split; [congruence|]. split; congruence.
Qed.

(** Unmounting freezes the history. From any state the component
    reaches, once it is unmounted the history and the buffer index are
    what they were before, and stay so whatever arrives afterwards (keys
    and edits the widget still reports, requests that end, successfully
    or not): no page is loaded, no request is made, and no request is in
    flight. *)
Theorem nothing_is_loaded_after_unmount (p : Props) (now : Z)
    (evs later : list Event) :
  Forall fromOutside later ->
  history (run (evs ++ Unmount :: later) (constructor p now))
    = history (run evs (constructor p now)) /\
  bufferIndex (run (evs ++ Unmount :: later) (constructor p now))
    = bufferIndex (run evs (constructor p now)) /\
  requests (run (evs ++ Unmount :: later) (constructor p now))
    = requests (run evs (constructor p now)) /\
  loadingPromise (run (evs ++ Unmount :: later) (constructor p now)) = None.
Proof.
  intros Hlater. rewrite run_app.
  assert (Hflight : singleFlight (run evs (constructor p now))).
  { apply (run_invariant singleFlight flight_dispatch).
    apply noLive_idle; [|reflexivity].
    intros q cq Hq. simpl in Hq. rewrite lookup_nil in Hq. discriminate. }
  revert Hflight. generalize (run evs (constructor p now)). intros st Hflight.
  change (run (Unmount :: later) st) with (run later (exec (dispatch Unmount) st)).
  pose proof (unmount_gone st Hflight) as H0.
  revert H0. generalize (exec (dispatch Unmount) st). intros st1 H0.
  assert (H1 : gone (history st) (bufferIndex st) (requests st) (run later st1)).
  { revert st1 H0. induction Hlater as [|ev later Hev _ IH]; intros st1 H0; [exact H0|].
    simpl. apply IH. apply (gone_dispatch _ _ _ ev Hev). exact H0. }
  destruct H1 as (_ & Hl & _ & Hh & Hb & Hr). repeat split; assumption.
Qed.

(** The component is unmounted while the first request is pending; the
    table then arrives and the widget reports a key. *)
Lemma nothing_is_loaded_after_unmount_witness :
  history (run ([Mount] ++ Unmount :: [Settle 0%nat (ResolvedTable sampleTable);
                                       KeyDown arrowUp])
             (constructor sampleProps 0))
  = history (run [Mount] (constructor sampleProps 0)).
Proof.
  apply (nothing_is_loaded_after_unmount sampleProps 0 [Mount]
           [Settle 0%nat (ResolvedTable sampleTable); KeyDown arrowUp]).
  repeat constructor.
Defined.

(** *** A whole fetch *)

Lemma settle_in_flight (st : State) (p : PromiseRef) (cp : CancelablePromise) (o : Outcome) :
  loadingPromise st = Some p ->
  promises st !! p = Some cp ->
  live cp ->
  outcomeOf (wraps cp) o = true ->
  settle p o st =
    loadMoreHistory_resume (wraps cp) o
      (set_promises (alter markSettled p (promises st)) st).
Proof.
  intros Hl Hp [Hs Hc] Ho. unfold settle. unfold_m.
  rewrite Hp, Hs, Hc, Ho. simpl. rewrite bool_decide_eq_true_2 by exact Hl.
  reflexivity.
Qed.

Lemma stage_start (st : State) :
  loadingPromise st = None ->
  bufferIndex st <> None ->
  exists st1,
    loadMoreHistory st = (Normal tt, st1) /\
    effects st1 =
      (effects st ++ [StorageGetTable (language (props st))
                        (default "" (scope (props st))) (timestamp st)])%list /\
    promises st1 =
      (promises st ++ [{| wraps := GetTable; hasCanceled := false; settled := false |}])%list /\
    loadingPromise st1 = Some (length (promises st)) /\
    history st1 = history st /\ bufferIndex st1 = bufferIndex st.
Proof.
  intros Hl Hb. rewrite loadMoreHistory_cases, Hl.
  destruct (bufferIndex st) eqn:E; [|congruence]. simpl.
  eexists. split; [reflexivity|]. simpl. rewrite E. repeat split; reflexivity.
Qed.

Lemma stage_table (st : State) (p : PromiseRef) (table : Table) :
  loadingPromise st = Some p ->
  promises st !! p = Some {| wraps := GetTable; hasCanceled := false; settled := false |} ->
  exists st2,
    settle p (ResolvedTable table) st = (Normal tt, st2) /\
    effects st2 =
      (effects st ++
         [TableSetReversed table true;
          TableSetViewport table (bufferIndex st)
            (toNumber (bufferIndex st) + BUFFER_SIZE - 1);
          TableGetViewportData table])%list /\
    promises st2 =
      (alter markSettled p (promises st) ++
         [{| wraps := GetViewportData table; hasCanceled := false; settled := false |}])%list /\
    loadingPromise st2 = Some (length (promises st)) /\
    history st2 = history st /\ bufferIndex st2 = bufferIndex st.
Proof.
  intros Hl Hp.
  rewrite (settle_in_flight st p _ _ Hl Hp) by (try split; reflexivity).
  unfold loadMoreHistory_resume, try_catch, loadMoreHistory_table, makeCancelable.
  unfold_m. simpl. eexists. split; [reflexivity|]. simpl.
  rewrite length_alter, <- !app_assoc. repeat split; reflexivity.
Qed.

Lemma stage_page (st : State) (p : PromiseRef) (table : Table)
    (items : list CommandHistoryStorageItem) :
  loadingPromise st = Some p ->
  promises st !! p
    = Some {| wraps := GetViewportData table; hasCanceled := false; settled := false |} ->
  exists st3,
    settle p (ResolvedViewport items) st = (Normal tt, st3) /\
    effects st3 = (effects st ++ [TableClose table])%list /\
    history st3 = (rev (map name (dropRepeats None items)) ++ history st)%list /\
    bufferIndex st3 =
      (if size table <=? toNumber (bufferIndex st) + BUFFER_SIZE
       then None else Some (toNumber (bufferIndex st) + BUFFER_SIZE)) /\
    loadingPromise st3 = None.
Proof.
  intros Hl Hp.
  rewrite (settle_in_flight st p _ _ Hl Hp) by (try split; reflexivity).
  unfold loadMoreHistory_resume, try_catch.
  cbn [wraps]. rewrite loadMoreHistory_viewport_state.
  eexists. split; [reflexivity|]. simpl.
  rewrite filter3_dropRepeats. repeat split; reflexivity.
Qed.

Lemma stage_failed (st : State) (p : PromiseRef) (cp : CancelablePromise) (err : Error) :
  loadingPromise st = Some p ->
  promises st !! p = Some cp ->
  live cp ->
  exists st',
    settle p (Rejected err) st = (Normal tt, st') /\
    effects st' = (effects st ++ [catchLog err])%list /\
    history st' = history st /\ bufferIndex st' = bufferIndex st /\
    loadingPromise st' = None /\
    props st' = props st /\ timestamp st' = timestamp st.
Proof.
  intros Hl Hp Hlive.
  rewrite (settle_in_flight st p cp _ Hl Hp Hlive)
    by (destruct (wraps cp); reflexivity).
  unfold loadMoreHistory_resume, try_catch.
  assert (Hthrow : forall s : State,
            match wraps cp, Rejected err with
            | _, Rejected err => throw err
            | GetTable, ResolvedTable table => loadMoreHistory_table table
            | GetViewportData table, ResolvedViewport items =>
                loadMoreHistory_viewport table items
            | _, _ => ret tt
            end s = (Throw err, s)).
  { intros s. destruct (wraps cp); reflexivity. }
  rewrite Hthrow, loadMoreHistory_catch_state.
  eexists. split; [reflexivity|]. simpl. repeat split; reflexivity.
Qed.

Lemma lookup_next {A} (l : list A) (x : A) : (l ++ [x])%list !! length l = Some x.
Proof. rewrite lookup_app_r by lia. rewrite Nat.sub_diag. reflexivity. Qed.

(** The first two parts of a fetch, from an idle state. *)
Lemma fetch_to_page (st : State) (table : Table) :
  loadingPromise st = None ->
  bufferIndex st <> None ->
  exists st2,
    (loadMoreHistory;; settle (length (promises st)) (ResolvedTable table)) st
      = (Normal tt, st2) /\
    effects st2 = (effects st ++ fetchCalls st table)%list /\
    loadingPromise st2 = Some (S (length (promises st))) /\
    promises st2 !! S (length (promises st))
      = Some {| wraps := GetViewportData table; hasCanceled := false; settled := false |} /\
    history st2 = history st /\ bufferIndex st2 = bufferIndex st /\
    props st2 = props st /\ timestamp st2 = timestamp st.
Proof.
  intros Hl Hb.
  destruct (stage_start st Hl Hb) as (st1 & Hrun1 & Hf1 & Hp1 & Hl1 & Hh1 & Hb1).
  assert (Hpt : props st1 = props st /\ timestamp st1 = timestamp st).
  { rewrite loadMoreHistory_cases in Hrun1.
    destruct (negb (isNull (loadingPromise st)) || isNull (bufferIndex st));
      injection Hrun1 as <-; split; reflexivity. }
  assert (Hlook : promises st1 !! length (promises st)
                  = Some {| wraps := GetTable; hasCanceled := false; settled := false |}).
  { rewrite Hp1. apply lookup_next. }
  destruct (stage_table st1 _ table Hl1 Hlook) as (st2 & Hrun2 & Hf2 & Hp2 & Hl2 & Hh2 & Hb2).
  assert (Hpt2 : props st2 = props st1 /\ timestamp st2 = timestamp st1).
  { rewrite (settle_in_flight st1 _ _ _ Hl1 Hlook) in Hrun2 by (try split; reflexivity).
    unfold loadMoreHistory_resume, try_catch, loadMoreHistory_table, makeCancelable in Hrun2.
    unfold_m. simpl in Hrun2. injection Hrun2 as <-. split; reflexivity. }
  exists st2. split.
  { unfold bind. rewrite Hrun1. exact Hrun2. }
  assert (Hlen : length (promises st1) = S (length (promises st))).
  { rewrite Hp1, length_app. simpl. lia. }
  split.
  { rewrite Hf2, Hf1, Hb1, <- app_assoc. unfold fetchCalls. reflexivity. }
  split; [rewrite Hl2, Hlen; reflexivity|].
  split.
  { rewrite Hp2, <- Hlen, <- (length_alter markSettled (promises st1) (length (promises st))).
    apply lookup_next. }
  destruct Hpt, Hpt2. repeat split; congruence.
Qed.

(** A fetch that goes well, end to end. From an idle state with history
    left to fetch: the storage is asked for the table, the table is
    reversed and asked for the one page that starts at [bufferIndex], the
    names of the page go in front of the history (oldest first, repeats
    of a neighbour dropped), [bufferIndex] advances by a page, or becomes
    null when the table has no more rows, the table is closed and no
    request is left in flight. *)
Theorem fetch_loads_one_page (st : State) (table : Table)
    (items : list CommandHistoryStorageItem) :
  loadingPromise st = None ->
  bufferIndex st <> None ->
  completion (fetch st (ResolvedTable table) (ResolvedViewport items)) st = Normal tt /\
  effects (exec (fetch st (ResolvedTable table) (ResolvedViewport items)) st)
    = (effects st ++ fetchCalls st table ++ [TableClose table])%list /\
  history (exec (fetch st (ResolvedTable table) (ResolvedViewport items)) st)
    = (rev (map name (dropRepeats None items)) ++ history st)%list /\
  bufferIndex (exec (fetch st (ResolvedTable table) (ResolvedViewport items)) st)
    = (if size table <=? toNumber (bufferIndex st) + BUFFER_SIZE
       then None else Some (toNumber (bufferIndex st) + BUFFER_SIZE)) /\
  loadingPromise (exec (fetch st (ResolvedTable table) (ResolvedViewport items)) st) = None.
Proof.
  intros Hl Hb.
  destruct (fetch_to_page st table Hl Hb)
    as (st2 & Hrun2 & Hf2 & Hl2 & Hp2 & Hh2 & Hb2 & _).
  destruct (stage_page st2 _ table items Hl2 Hp2) as (st3 & Hrun3 & Hf3 & Hh3 & Hb3 & Hl3).
  assert (Hall : fetch st (ResolvedTable table) (ResolvedViewport items) st
                 = (Normal tt, st3)).
  { unfold fetch. unfold bind in *.
    destruct (loadMoreHistory st) as [[[]|e] s1]; [|discriminate].
    rewrite Hrun2. exact Hrun3. }
  unfold completion, exec. rewrite Hall. simpl.
  rewrite Hf3, Hf2, Hh3, Hh2, Hb3, Hb2, <- app_assoc. repeat split; assumption.
Qed.

(** The first fetch of the sample: one page brings the three commands. *)
Lemma fetch_loads_one_page_witness :
  history (exec (fetch (constructor sampleProps 0)
                   (ResolvedTable sampleTable) (ResolvedViewport samplePage))
             (constructor sampleProps 0))
  = ["a"; "b"; "c"].
Proof.
  apply (fetch_loads_one_page (constructor sampleProps 0) sampleTable samplePage).
  - reflexivity.
  - discriminate.
Defined.

(** A fetch whose page request fails. The error is logged and nothing is
    loaded: history and [bufferIndex] are as before and no request is in
    flight, so the next call of [loadMoreHistory] asks the storage again,
    for the same page. The table that the first request brought is not
    closed. *)
Theorem failed_fetch_is_retried (st : State) (table : Table) (err : Error) :
  loadingPromise st = None ->
  bufferIndex st <> None ->
  completion (fetch st (ResolvedTable table) (Rejected err)) st = Normal tt /\
  effects (exec (fetch st (ResolvedTable table) (Rejected err)) st)
    = (effects st ++ fetchCalls st table ++ [catchLog err])%list /\
  history (exec (fetch st (ResolvedTable table) (Rejected err)) st) = history st /\
  bufferIndex (exec (fetch st (ResolvedTable table) (Rejected err)) st) = bufferIndex st /\
  fetchStarted (exec (fetch st (ResolvedTable table) (Rejected err)) st)
    (exec (fetch st (ResolvedTable table) (Rejected err);; loadMoreHistory) st).
Proof.
  intros Hl Hb.
  destruct (fetch_to_page st table Hl Hb)
    as (st2 & Hrun2 & Hf2 & Hl2 & Hp2 & Hh2 & Hb2 & Hpr2 & Hts2).
  destruct (stage_failed st2 _ _ err Hl2 Hp2) as (st3 & Hrun3 & Hf3 & Hh3 & Hb3 & Hl3 & _);
    [split; reflexivity|].
  assert (Hall : fetch st (ResolvedTable table) (Rejected err) st = (Normal tt, st3)).
  { unfold fetch. unfold bind in *.
    destruct (loadMoreHistory st) as [[[]|e] s1]; [|discriminate].
    rewrite Hrun2. exact Hrun3. }
  assert (Hnext : (fetch st (ResolvedTable table) (Rejected err);; loadMoreHistory) st
                  = loadMoreHistory st3).
  { unfold bind at 1. rewrite Hall. reflexivity. }
  unfold completion, exec. rewrite Hnext, Hall. simpl.
  split; [reflexivity|].
  split; [rewrite Hf3, Hf2, <- app_assoc; reflexivity|].
  split; [congruence|]. split; [congruence|].
  apply (proj1 (loadMoreHistory_fetch st3)). split; [exact Hl3 | congruence].
Qed.

(** The first fetch of the sample fails at its page: the history stays
    empty and the next call asks again. *)
Lemma failed_fetch_is_retried_witness :
  history (exec (fetch (constructor sampleProps 0)
                   (ResolvedTable sampleTable) (Rejected (RemoteError "offline")))
             (constructor sampleProps 0))
  = [].
Proof.
  apply (failed_fetch_is_retried (constructor sampleProps 0) sampleTable
           (RemoteError "offline")).
  - reflexivity.
  - discriminate.
Defined.

(** *** [setConsoleText] *)



(** With [execute], the text is run as it is: it is submitted untrimmed
    and goes through the history test of [processCommand], while the
    editor keeps its text. An empty text does nothing at all, not even a
    submit. And when the component has no editor and [focus] is asked
    for, the call throws before the command is submitted. *)
Theorem setConsoleText_runs_command (st : State) (text : string) (focusInput : bool) :
  setConsoleText "" focusInput true st = (Normal tt, st) /\
  (text <> "" -> (focusInput = true -> commandEditor st <> None) ->
   completion (setConsoleText text focusInput true) st = Normal tt /\
   editorText (exec (setConsoleText text focusInput true) st) = editorText st /\
   history (exec (setConsoleText text focusInput true) st)
     = history (exec (processCommand text) st) /\
   commandHistoryIndex (exec (setConsoleText text focusInput true) st) = None /\
   effects (exec (setConsoleText text focusInput true) st)
     = (effects st ++ [LogDebug ("Command received: " ++ text); OnSubmit text])%list) /\
  (text <> "" -> commandEditor st = None ->
   completion (setConsoleText text true true) st = Throw AssertionError /\
   history (exec (setConsoleText text true true) st) = history st /\
   effects (exec (setConsoleText text true true) st)
     = (effects st ++ [LogDebug ("Command received: " ++ text)])%list).
Proof.
  split; [reflexivity|]. split.
  - intros Htext Hfocus. unfold completion, exec, editorText, setConsoleText.
    apply String.eqb_neq in Htext. rewrite Htext.
    destruct focusInput.
    + destruct (commandEditor st) as [ed|] eqn:He; [|exfalso; apply Hfocus; reflexivity].
      unfold focusEnd. unfold_m. simpl. rewrite He. simpl.
      rewrite !processCommand_state. simpl. rewrite ?He, <- app_assoc.
      repeat split; reflexivity.
    + unfold_m. simpl. rewrite !processCommand_state. simpl. rewrite <- app_assoc.
      repeat split; reflexivity.
  - intros Htext He. unfold completion, exec, setConsoleText.
    apply String.eqb_neq in Htext. rewrite Htext.
    unfold focusEnd. unfold_m. simpl. rewrite He. simpl. repeat split; reflexivity.
Qed.

(** A command with blanks around it is run as it is; on the unmounted
    sample the call with [focus] throws. *)
Lemma setConsoleText_runs_command_witness :
  effects (exec (setConsoleText " x " false true) idle)
    = (effects idle ++ [LogDebug ("Command received: " ++ " x "); OnSubmit " x "])%list /\
  completion (setConsoleText " x " true true) unmounted = Throw AssertionError.
Proof.
  destruct (setConsoleText_runs_command idle " x " false) as (_ & Hrun & _).
  destruct (setConsoleText_runs_command unmounted " x " true) as (_ & _ & Hthrow).
  split.
  - apply Hrun; [discriminate | intros H; discriminate H].
  - apply Hthrow; [discriminate | reflexivity].
Defined.

(** *** The height of the input *)




(** *** Walking through the history key after key *)

(** An arrow key that loads a command leaves the cursor where the same
    key loads again: ArrowUp puts it at the end of the first line of the
    command it has loaded, ArrowDown at the end of the last line. So,
    while the suggestion menu stays empty, the user walks through the
    history key after key and is not caught inside a command of several
    lines. *)
Theorem arrow_keys_keep_navigating (st : State) (ed : Editor) (pos : Position)
    (ev : KeyEvent) :
  commandEditor st = Some ed ->
  position ed = Some pos ->
  indexInRange st ->
  completion isSuggestionMenuPopulated st = Normal false ->
  keyAction ev (lineNumber pos) (getLineCount (value ed)) false = GoUp \/
  keyAction ev (lineNumber pos) (getLineCount (value ed)) false = GoDown ->
  exists ed' pos',
    commandEditor (exec (onKeyDown ev) st) = Some ed' /\
    position ed' = Some pos' /\
    column pos' = getLineLength (value ed') (lineNumber pos') + 1 /\
    keyAction ev (lineNumber pos') (getLineCount (value ed')) false
    = keyAction ev (lineNumber pos) (getLineCount (value ed)) false.
Proof.
  intros He Hp Hidx Hmenu Hact.
  destruct (onKeyDown_cases st ed pos ev He Hp) as (b & Hb & Hcase).
  rewrite Hmenu in Hb. injection Hb as <-.
  destruct (isSuggestionMenuPopulated_sameButMenu st) as (_ & Hes & _).
  set (s := exec isSuggestionMenuPopulated st) in *.
  rewrite He in Hes.
  destruct Hact as [Hact | Hact]; rewrite Hact in *.
  - assert (Ht : match arrowUpTarget (commandHistoryIndex st) with
                 | Some i => 0 <= i | None => True end).
    { unfold indexInRange in Hidx. destruct (commandHistoryIndex st); simpl; lia. }
    destruct (loadCommand_total _ s ed Hes Ht) as (s' & ed' & Hrun & He').
    unfold exec. rewrite Hcase. unfold bind at 1. rewrite Hrun.
    unfold focusStart. unfold_m. rewrite He'. simpl.
    eexists _, _. split; [reflexivity|]. simpl. split; [reflexivity|].
    split; [reflexivity|].
    unfold keyAction in *.
    destruct (altKey ev || shiftKey ev || metaKey ev); [discriminate|].
    destruct (String.eqb (code ev) "ArrowUp"); [reflexivity|].
    simpl in Hact.
    destruct (String.eqb (code ev) "ArrowDown" && true &&
              (lineNumber pos =? getLineCount (value ed))); [discriminate|].
    destruct ((keyCode ev =? KeyCode_Enter) && true); discriminate.
  - assert (Ht : match arrowDownTarget (commandHistoryIndex st) with
                 | Some i => 0 <= i | None => True end).
    { unfold indexInRange in Hidx. destruct (commandHistoryIndex st) as [i|]; simpl; [|exact I].
      destruct (Z.ltb_spec 0 i); [lia | exact I]. }
    destruct (loadCommand_total _ s ed Hes Ht) as (s' & ed' & Hrun & He').
    unfold exec. rewrite Hcase. unfold bind at 1. rewrite Hrun.
    unfold focusEnd. unfold_m. rewrite He'. simpl.
    eexists _, _. split; [reflexivity|]. simpl. split; [reflexivity|].
    split; [reflexivity|].
    unfold keyAction in *.
    destruct (altKey ev || shiftKey ev || metaKey ev); [discriminate|].
    destruct (String.eqb (code ev) "ArrowUp" && negb false && (lineNumber pos =? 1));
      [discriminate|].
    destruct (String.eqb (code ev) "ArrowDown") eqn:Hdown.
    + destruct (String.eqb (code ev) "ArrowUp") eqn:Hup.
      * apply String.eqb_eq in Hup, Hdown. congruence.
      * simpl. rewrite Z.eqb_refl. reflexivity.
    + simpl in Hact. destruct ((keyCode ev =? KeyCode_Enter) && true); discriminate.
Qed.

(** ArrowUp while browsing offset 1 of the sample. *)
Lemma arrow_keys_keep_navigating_witness :
  exists ed' pos',
    commandEditor (exec (onKeyDown arrowUp) browsing) = Some ed' /\
    position ed' = Some pos' /\
    keyAction arrowUp (lineNumber pos') (getLineCount (value ed')) false = GoUp.
Proof.
  assert (He : exists ed, commandEditor browsing = Some ed /\
                          position ed = Some {| lineNumber := 1; column := 6 |} /\
                          value ed = "b + 1").
  { eexists. repeat split; reflexivity. }
  destruct He as (ed & He & Hp & Hv).
  assert (Hidx : indexInRange browsing) by (vm_compute; split; congruence).
  assert (Hact : keyAction arrowUp 1 (getLineCount (value ed)) false = GoUp).
  { rewrite Hv. reflexivity. }
  destruct (arrow_keys_keep_navigating browsing ed _ arrowUp He Hp Hidx eq_refl
              (or_introl Hact)) as (ed' & pos' & He' & Hp' & _ & Hnext).
  exists ed', pos'. split; [exact He'|]. split; [exact Hp'|].
  rewrite Hnext. exact Hact.
Defined.

(** *** ArrowUp at the oldest entry *)

(** ArrowUp handled as history navigation when there is no older entry
    loaded (the index is at the oldest entry, or the history is empty):
    the guard of [loadCommand] stops the call, so the index, the text, the
    recorded edits and the history stay as they are and no fetch is
    started; the key event is consumed all the same. *)
Theorem arrow_up_at_the_oldest_entry (st : State) (ed : Editor) (pos : Position)
    (ev : KeyEvent) :
  commandEditor st = Some ed ->
  position ed = Some pos ->
  completion isSuggestionMenuPopulated st = Normal false ->
  keyAction ev (lineNumber pos) (getLineCount (value ed)) false = GoUp ->
  ~ accepted (arrowUpTarget (commandHistoryIndex st)) st ->
  completion (onKeyDown ev) st = Normal tt /\
  commandHistoryIndex (exec (onKeyDown ev) st) = commandHistoryIndex st /\
  editorText (exec (onKeyDown ev) st) = editorText st /\
  modifiedCommands (exec (onKeyDown ev) st) = modifiedCommands st /\
  history (exec (onKeyDown ev) st) = history st /\
  loadingPromise (exec (onKeyDown ev) st) = loadingPromise st /\
  effects (exec (onKeyDown ev) st) = (effects st ++ [StopPropagation; PreventDefault])%list.
Proof.
  intros He Hp Hmenu Hact Hguard.
  destruct (onKeyDown_cases st ed pos ev He Hp) as (b & Hb & Hcase).
  rewrite Hmenu in Hb. injection Hb as <-. rewrite Hact in Hcase.
  destruct (isSuggestionMenuPopulated_sameButMenu st)
    as (_ & Hes & Hxs & Hls & _ & _ & Hhs & Hms & _ & Hfs).
  set (s := exec isSuggestionMenuPopulated st) in *.
  assert (Hbeyond : exists t, arrowUpTarget (commandHistoryIndex st) = Some t /\
                              Z.of_nat (length (history s)) <= t).
  { unfold accepted in Hguard. rewrite Hhs.
    destruct (arrowUpTarget (commandHistoryIndex st)) as [t|]; [|tauto].
    exists t. split; [reflexivity | lia]. }
  destruct Hbeyond as (t & Ht & Hle).
  assert (Hrun : onKeyDown ev st =
            (Normal tt,
             set_effects (effects s ++ [StopPropagation; PreventDefault])
               (set_commandEditor
                  (Some (withCursor {| lineNumber := 1;
                                       column := getLineLength (value ed) 1 + 1 |} ed))
                  s))).
  { rewrite Hcase, Ht. unfold bind at 1. rewrite (loadCommand_beyond s t Hle).
    unfold focusStart. unfold_m. rewrite Hes, He. simpl. f_equal.
    apply state_ext; simpl; rewrite <- ?app_assoc; reflexivity. }
  unfold completion, exec, editorText. rewrite Hrun. simpl.
  rewrite Hxs, Hms, Hhs, Hls, Hfs, He. repeat split; reflexivity.
Qed.

(** ArrowUp on the oldest of the three commands of the sample. *)
Lemma arrow_up_at_the_oldest_entry_witness :
  commandHistoryIndex (exec (onKeyDown arrowUp) (run [KeyDown arrowUp] browsing)) = Some 2 /\
  editorText (exec (onKeyDown arrowUp) (run [KeyDown arrowUp] browsing)) = Some "a".
Proof.
  assert (He : exists ed, commandEditor (run [KeyDown arrowUp] browsing) = Some ed /\
                          position ed = Some {| lineNumber := 1; column := 2 |} /\
                          value ed = "a").
  { eexists. repeat split; reflexivity. }
  destruct He as (ed & He & Hp & Hv).
  assert (Hact : keyAction arrowUp 1 (getLineCount (value ed)) false = GoUp).
  { rewrite Hv. reflexivity. }
  assert (Hguard : ~ accepted (arrowUpTarget (commandHistoryIndex (run [KeyDown arrowUp] browsing)))
                     (run [KeyDown arrowUp] browsing)).
  { vm_compute. congruence. }
  destruct (arrow_up_at_the_oldest_entry (run [KeyDown arrowUp] browsing) ed _ arrowUp
              He Hp eq_refl Hact Hguard) as (_ & Hx & Ht & _).
  split; [exact Hx|]. rewrite Ht. unfold editorText. rewrite He. simpl. rewrite Hv. reflexivity.
Defined.

(** *** What the storage is asked *)

Lemma asks_emit p now (e : Effect) :
  storageOk p now e -> preserves (asksAsOf p now) (emit e).
Proof.
  intros He st (Hp & Ht & Hf). split; [exact Hp|]. split; [exact Ht|].
  simpl. apply Forall_app. split; [exact Hf|]. constructor; [exact He | constructor].
Qed.

#[local] Hint Extern 0 (storageOk _ _ _) => exact I : preserves.
#[local] Hint Resolve asks_emit : preserves.

Ltac asks_auto := repeat preserves_step kept_frame.

Lemma asks_loadMoreHistory p now : preserves (asksAsOf p now) loadMoreHistory.
Proof.
  intros st H. rewrite loadMoreHistory_cases.
  destruct (negb (isNull (loadingPromise st)) || isNull (bufferIndex st)); [exact H|].
  destruct H as (Hp & Ht & Hf). split; [exact Hp|]. split; [exact Ht|].
  simpl. apply Forall_app. split; [exact Hf|].
  constructor; [|constructor]. simpl. rewrite Hp, Ht. repeat split; reflexivity.
Qed.

Lemma asks_resume p now r o : preserves (asksAsOf p now) (loadMoreHistory_resume r o).
Proof.
  unfold loadMoreHistory_resume, loadMoreHistory_table, loadMoreHistory_viewport,
    loadMoreHistory_catch, makeCancelable.
  asks_auto.
Qed.

Lemma asks_setValue p now v : preserves (asksAsOf p now) (setValue v).
Proof. unfold setValue, onDidChangeModelContent. asks_auto. Qed.

Lemma asks_processCommand p now command : preserves (asksAsOf p now) (processCommand command).
Proof. unfold processCommand. asks_auto. Qed.

Lemma asks_focusStart p now : preserves (asksAsOf p now) focusStart.
Proof. unfold focusStart. asks_auto. Qed.

Lemma asks_focusEnd p now : preserves (asksAsOf p now) focusEnd.
Proof. unfold focusEnd. asks_auto. Qed.

Lemma asks_menu p now : preserves (asksAsOf p now) isSuggestionMenuPopulated.
Proof. unfold isSuggestionMenuPopulated, isSuggestionMenuActive. asks_auto. Qed.

#[local] Hint Resolve asks_loadMoreHistory asks_resume asks_setValue asks_processCommand
  asks_focusStart asks_focusEnd asks_menu : preserves.

Lemma asks_loadCommand p now index : preserves (asksAsOf p now) (loadCommand index).
Proof. unfold loadCommand. asks_auto. Qed.

#[local] Hint Resolve asks_loadCommand : preserves.

Lemma asks_dispatch p now (ev : Event) : preserves (asksAsOf p now) (dispatch ev).
Proof.
  destruct ev; simpl.
  - unfold componentDidMount, initCommandEditor. asks_auto.
  - unfold componentWillUnmount, destroyCommandEditor, deliverCancellation, cancel.
    asks_auto.
  - unfold onKeyDown. asks_auto.
  - unfold userEdit, onDidChangeModelContent. asks_auto.
  - unfold cursorMove. asks_auto.
  - unfold suggestMenu. asks_auto.
  - unfold setConsoleText. asks_auto.
  - unfold clear, focus. asks_auto.
  - unfold settle, cleanup. asks_auto.
Qed.

(** Every request for history the component ever makes asks the storage
    for the language and the scope of its props (the empty scope when the
    prop is null) as of the time the component was constructed: the
    timestamp is taken once, in the constructor, so commands run since,
    which the component appends itself, are not fetched again. *)
Theorem history_is_asked_as_of_construction (p : Props) (now : Z) (evs : list Event) :
  Forall (storageOk p now) (effects (run evs (constructor p now))).
Proof.
  apply (run_invariant (asksAsOf p now) (asks_dispatch p now)).
  split; [reflexivity|]. split; [reflexivity | constructor].
Qed.

End ConsoleInputFacts.

(** ** Properties of the hooks *)

Module HooksFacts.

Import Js Hooks HooksSpec Samples.

Lemma removeNullAndUndefined_filter {T} (l : list (Nullable T)) :
  map JsVal (removeNullAndUndefined l) = List.filter notNullish l.
Proof.
  induction l as [|[| |v] l IH]; simpl; try exact IH.
  - reflexivity.
  - f_equal. exact IH.
Qed.

Lemma map_DepFactory_inj (l1 l2 : list FactoryRef) :
  map DepFactory l1 = map DepFactory l2 -> l1 = l2.
Proof.
  revert l2. induction l1 as [|f l1 IH]; intros [|g l2]; simpl; try discriminate.
  - reflexivity.
  - intros [= -> H]. f_equal. apply IH. exact H.
Qed.

Section Factories.

Variable FilterCondition : Type.
Variable call : FactoryRef -> MaybeTable -> Nullable FilterCondition.

(** One call of the hook on a cell that holds what an earlier call left
    there: the result is right and the cell is left in order. *)
Lemma useFilterConditionFactories_step maybeTable factories cell :
  cellOk call cell ->
  map JsVal (fst (useFilterConditionFactories FilterCondition call
                    maybeTable factories cell))
  = List.filter notNullish (map (fun f => call f maybeTable) factories)
  /\ cellOk call (snd (useFilterConditionFactories FilterCondition call
                         maybeTable factories cell)).
Proof.
  intros Hok. unfold useFilterConditionFactories, useMemo.
  destruct cell as [c|].
  - case_bool_decide as Hd; simpl.
    + destruct Hok as (t & fs & Hdeps & Hval). split; [|exists t, fs; auto].
      rewrite Hdeps in Hd. injection Hd as -> Hfs.
      apply map_DepFactory_inj in Hfs. subst fs.
      rewrite Hval. apply removeNullAndUndefined_filter.
    + split; [apply removeNullAndUndefined_filter|].
      exists maybeTable, factories. auto.
  - simpl. split; [apply removeNullAndUndefined_filter|].
    exists maybeTable, factories. auto.
Qed.

Lemma renders_ok args cell :
  cellOk call cell ->
  Forall2
    (fun arg result =>
       map JsVal result =
       List.filter notNullish (map (fun f => call f (fst arg)) (snd arg)))
    args (renders FilterCondition call args cell).
Proof.
  revert cell. induction args as [|[t fs] args IH]; intros cell Hok; simpl.
  - constructor.
  - destruct (useFilterConditionFactories_step t fs cell Hok) as [Hres Hcell].
    destruct (useFilterConditionFactories _ _ t fs cell) as [result cell'].
    constructor; [exact Hres | apply IH; exact Hcell].
Qed.

End Factories.




End HooksFacts.
